(** * Waybar MPRIS module: a shallow embedding of [src/modules/mpris/mpris.cpp]

    The module tracks one media player over the session bus through
    libplayerctl, renders a snapshot of it into a markup label and maps
    clicks to transport commands.  Every member function of [Mpris] is
    transcribed below as a computation over the object's fields; the
    calls into libplayerctl are answered by a [Bus] record, the calls
    into fmt, Glib and the parent class [AModule] by a [Host] instance.

    C++ outcomes that are not a normal return are kept explicit: a
    [throw] and undefined behaviour (dereferencing a null [char*] or an
    empty [std::optional]) are constructors of [outcome]. *)

From Stdlib Require Import String Ascii ZArith NArith List Bool Lia DecimalString.
Import ListNotations.
Local Open Scope string_scope.
Local Open Scope Z_scope.

(** ** Characters, C strings and numbers *)

Module CStr.

(** [std::tolower] on one [char], in the "C" locale (and in the UTF-8
    locales, whose single bytes above 127 are not letters). *)
Definition tolower (c : ascii) : ascii :=
  let n := N_of_ascii c in
  if ((65 <=? n) && (n <=? 90))%N then ascii_of_N (n + 32) else c.

(** [s[0] = std::tolower(s[0])] on a NUL-terminated buffer.  On the empty
    string the byte at index 0 is the terminator, which [tolower] maps to
    itself: the buffer is unchanged. *)
Definition lower_first (s : string) : string :=
  match s with
  | EmptyString => EmptyString
  | String c rest => String (tolower c) rest
  end.

(** [isspace] in the "C" locale: space, and \t \n \v \f \r. *)
Definition isspace (c : ascii) : bool :=
  let n := N_of_ascii c in
  ((n =? 32) || ((9 <=? n) && (n <=? 13)))%N.

Definition digit_of (c : ascii) : option Z :=
  let n := N_of_ascii c in
  if ((48 <=? n) && (n <=? 57))%N then Some (Z.of_N n - 48) else None.

Fixpoint skip_space (s : string) : string :=
  match s with
  | String c rest => if isspace c then skip_space rest else s
  | EmptyString => s
  end.

Fixpoint digits_acc (acc : Z) (s : string) : Z :=
  match s with
  | String c rest =>
      match digit_of c with
      | Some d => digits_acc (10 * acc + d) rest
      | None => acc
      end
  | EmptyString => acc
  end.

(** [long] on the LP64 targets Waybar is built for. *)
Definition LONG_MAX : Z := 2 ^ 63 - 1.
Definition LONG_MIN : Z := - 2 ^ 63.

(** [std::strtol(s, nullptr, 10)]: leading white space, an optional
    sign, the longest run of decimal digits (none gives 0), saturating at
    the bounds of [long]. *)
Definition strtol (s : string) : Z :=
  let s := skip_space s in
  let '(neg, s) :=
    match s with
    | String "-"%char rest => (true, rest)
    | String "+"%char rest => (false, rest)
    | _ => (false, s)
    end in
  let v := digits_acc 0 s in
  let v := if neg then - v else v in
  Z.max LONG_MIN (Z.min LONG_MAX v).

Definition decimal (n : Z) : string :=
  NilZero.string_of_uint (N.to_uint (Z.to_N n)).

(** fmt's [{:02}] on an integer: decimal, sign-aware zero padding to a
    minimum width of two. *)
Definition pad2 (n : Z) : string :=
  if n <? 0 then "-" ++ decimal (- n)
  else if n <? 10 then "0" ++ decimal n
  else decimal n.

End CStr.

(** ** std::chrono durations

    All of [microseconds], [seconds], [minutes] and [hours] are signed
    64-bit tick counts; [duration_cast] to a coarser unit is an integer
    division truncating towards zero, and a difference of two durations
    is taken in the finer unit. *)

Module Chrono.

Definition us_per_second : Z := 1000000.
Definition us_per_minute : Z := 60 * us_per_second.
Definition us_per_hour : Z := 60 * us_per_minute.

Definition to_hours (us : Z) : Z := Z.quot us us_per_hour.
Definition to_minutes (us : Z) : Z := Z.quot us us_per_minute.
Definition to_seconds (us : Z) : Z := Z.quot us us_per_second.

End Chrono.

(** The body of the [mpris:length] branch of [getPlayerInfo] once the
    property text has been parsed (lines 223-231): [len] is the
    microsecond count, the result is what is stored in [info.length]. *)
Definition length_of_microseconds (len : Z) : option string :=
  if 0 <? len then
    let len_h := Chrono.to_hours len in
    let len_m := Chrono.to_minutes (len - len_h * Chrono.us_per_hour) in
    let len_s := Chrono.to_seconds (len - len_m * Chrono.us_per_minute) in
    Some (if 0 <? len_h
          then CStr.pad2 len_h ++ ":" ++ CStr.pad2 len_m ++ ":" ++ CStr.pad2 len_s
          else CStr.pad2 len_m ++ ":" ++ CStr.pad2 len_s)
  else None.

(** ** The configuration object (jsoncpp) *)

#[local] Unset Elimination Schemes.

Inductive Json : Type :=
| JNull
| JBool (b : bool)
| JInt (z : Z)
| JString (s : string)
| JArray (items : list Json)
| JObject (members : list (string * Json)).

#[local] Set Elimination Schemes.

Module JsonValue.

Definition isString (j : Json) : bool :=
  match j with JString _ => true | _ => false end.

Definition isObject (j : Json) : bool :=
  match j with JObject _ => true | _ => false end.

Fixpoint lookup (key : string) (members : list (string * Json)) : Json :=
  match members with
  | [] => JNull
  | (k, v) :: rest => if String.eqb k key then v else lookup key rest
  end.

(** [value[key]] on a constant value: the member, or null when there is
    none.  It is only ever applied to an object or to null. *)
Definition member (j : Json) (key : string) : Json :=
  match j with
  | JObject members => lookup key members
  | _ => JNull
  end.

(** [asString()] where [isString()] has been checked. *)
Definition asString (j : Json) : string :=
  match j with JString s => s | _ => "" end.

End JsonValue.

(** ** libplayerctl *)

Inductive PlayerctlPlaybackStatus : Type :=
| PLAYERCTL_PLAYBACK_STATUS_PLAYING
| PLAYERCTL_PLAYBACK_STATUS_PAUSED
| PLAYERCTL_PLAYBACK_STATUS_STOPPED.

(** A connected [PlayerctlPlayer*]; the null pointer is [None] at the
    places that hold one. *)
Inductive PlayerctlPlayer : Type :=
| Handle (instance : string).

Record PlayerctlPlayerName : Type := {
  pn_name : string;
  pn_instance : string
}.

(** A call returning [gchar*] with a [GError**] out-parameter: the
    pointer ([None] is null) and the message of the error, if one was
    set. *)
Record GReply : Type := {
  value : option string;
  gerror : option string
}.

Inductive Transport : Type := PlayPause | Previous | Next.

(** What the bus answers during one entry into the module. *)
Record Bus : Type := {
  (** [playerctl_player_new_from_name]: the handle and the error. *)
  new_from_name : string -> option PlayerctlPlayer * option string;
  (** [playerctl_list_players], most recently active first. *)
  list_players : list PlayerctlPlayerName * option string;
  (** [g_object_get(player, "status", ..., "playback-status", ...)]. *)
  prop_status : PlayerctlPlayer -> option string;
  prop_playback_status : PlayerctlPlayer -> PlayerctlPlaybackStatus;
  get_artist : PlayerctlPlayer -> GReply;
  get_album : PlayerctlPlayer -> GReply;
  get_title : PlayerctlPlayer -> GReply;
  print_metadata_prop : PlayerctlPlayer -> string -> GReply;
  (** [playerctl_player_play_pause] / [_previous] / [_next]: the error. *)
  command_error : PlayerctlPlayer -> Transport -> option string
}.

(** ** GDK button events *)

Inductive GdkEventType : Type :=
| GDK_BUTTON_PRESS
| GDK_2BUTTON_PRESS
| GDK_3BUTTON_PRESS
| GDK_BUTTON_RELEASE.

Record GdkEventButton : Type := {
  type : GdkEventType;
  button : N
}.

(** ** Outcomes and effects *)

Inductive outcome (A : Type) : Type :=
| Ret (a : A)
| Throw (what : string)
| Undefined.

Arguments Ret {A} a.
Arguments Throw {A} what.
Arguments Undefined {A}.

Inductive Level : Type := debug | warn | error.

(** What the module does to the world outside its own fields, in order. *)
Inductive Event : Type :=
| Log (lvl : Level) (msg : string)
| Sleep (seconds : nat)
| DpEmit
| ParentUpdate
| ParentToggle (e : GdkEventButton)
| Issue (c : Transport).

(** The collaborators that are not part of this file of the repository. *)
Class Host : Type := {
  (** [Glib::Markup::escape_text] *)
  escape_text : string -> string;
  (** [fmt::format] of a run-time format string with named arguments;
      a malformed string or an unknown name throws [fmt::format_error]. *)
  fmt_format : string -> list (string * string) -> outcome string;
  (** the value returned by [AModule::handleToggle] *)
  AModule_handleToggle : GdkEventButton -> bool
}.

(** ** The object

    The constructor fills [format_] (default ["{player} ({status}): {dynamic}"]),
    the three per-status formats (default empty), [player_] (default
    ["playerctld"]) and [ignored_players_] from the configuration; the
    functions below start from an object so constructed. *)

Record PlayerInfo : Type := {
  name : string;
  status : PlayerctlPlaybackStatus;
  status_string : string;
  artist : option string;
  album : option string;
  title : option string;
  length : option string
}.

Record Mpris : Type := {
  config_ : Json;
  format_ : string;
  format_playing_ : string;
  format_paused_ : string;
  format_stopped_ : string;
  player_ : string;
  ignored_players_ : list string;
  player : option PlayerctlPlayer;
  lastStatus : string;
  lastPlayer : string;
  (** the markup last given to [label_] *)
  label_ : string;
  (** the style classes of [box_] *)
  box_ : list string;
  (** visibility of [event_box_] *)
  event_box_ : bool;
  trace : list Event
}.

(** Assignment to one member. *)
Definition set_player (v : option PlayerctlPlayer) (m : Mpris) : Mpris :=
  {| config_ := config_ m; format_ := format_ m;
     format_playing_ := format_playing_ m; format_paused_ := format_paused_ m;
     format_stopped_ := format_stopped_ m; player_ := player_ m;
     ignored_players_ := ignored_players_ m; player := v;
     lastStatus := lastStatus m; lastPlayer := lastPlayer m;
     label_ := label_ m; box_ := box_ m; event_box_ := event_box_ m;
     trace := trace m |}.

Definition set_lastStatus (v : string) (m : Mpris) : Mpris :=
  {| config_ := config_ m; format_ := format_ m;
     format_playing_ := format_playing_ m; format_paused_ := format_paused_ m;
     format_stopped_ := format_stopped_ m; player_ := player_ m;
     ignored_players_ := ignored_players_ m; player := player m;
     lastStatus := v; lastPlayer := lastPlayer m; label_ := label_ m;
     box_ := box_ m; event_box_ := event_box_ m; trace := trace m |}.

Definition set_lastPlayer (v : string) (m : Mpris) : Mpris :=
  {| config_ := config_ m; format_ := format_ m;
     format_playing_ := format_playing_ m; format_paused_ := format_paused_ m;
     format_stopped_ := format_stopped_ m; player_ := player_ m;
     ignored_players_ := ignored_players_ m; player := player m;
     lastStatus := lastStatus m; lastPlayer := v; label_ := label_ m;
     box_ := box_ m; event_box_ := event_box_ m; trace := trace m |}.

Definition set_label_ (v : string) (m : Mpris) : Mpris :=
  {| config_ := config_ m; format_ := format_ m;
     format_playing_ := format_playing_ m; format_paused_ := format_paused_ m;
     format_stopped_ := format_stopped_ m; player_ := player_ m;
     ignored_players_ := ignored_players_ m; player := player m;
     lastStatus := lastStatus m; lastPlayer := lastPlayer m; label_ := v;
     box_ := box_ m; event_box_ := event_box_ m; trace := trace m |}.

Definition set_box_ (v : list string) (m : Mpris) : Mpris :=
  {| config_ := config_ m; format_ := format_ m;
     format_playing_ := format_playing_ m; format_paused_ := format_paused_ m;
     format_stopped_ := format_stopped_ m; player_ := player_ m;
     ignored_players_ := ignored_players_ m; player := player m;
     lastStatus := lastStatus m; lastPlayer := lastPlayer m;
     label_ := label_ m; box_ := v; event_box_ := event_box_ m;
     trace := trace m |}.

Definition set_event_box_ (v : bool) (m : Mpris) : Mpris :=
  {| config_ := config_ m; format_ := format_ m;
     format_playing_ := format_playing_ m; format_paused_ := format_paused_ m;
     format_stopped_ := format_stopped_ m; player_ := player_ m;
     ignored_players_ := ignored_players_ m; player := player m;
     lastStatus := lastStatus m; lastPlayer := lastPlayer m;
     label_ := label_ m; box_ := box_ m; event_box_ := v; trace := trace m |}.

Definition set_trace (v : list Event) (m : Mpris) : Mpris :=
  {| config_ := config_ m; format_ := format_ m;
     format_playing_ := format_playing_ m; format_paused_ := format_paused_ m;
     format_stopped_ := format_stopped_ m; player_ := player_ m;
     ignored_players_ := ignored_players_ m; player := player m;
     lastStatus := lastStatus m; lastPlayer := lastPlayer m;
     label_ := label_ m; box_ := box_ m; event_box_ := event_box_ m;
     trace := v |}.

(** ** Member functions as computations

    A member function runs on the object and ends in a normal return, a
    throw, or undefined behaviour; the object is kept in every case, so
    that what was assigned before a throw stays visible. *)

Definition M (A : Type) : Type := Mpris -> outcome A * Mpris.

Definition ret {A : Type} (a : A) : M A := fun m => (Ret a, m).

Definition bind {A B : Type} (c : M A) (k : A -> M B) : M B :=
  fun m =>
    match c m with
    | (Ret a, m') => k a m'
    | (Throw what, m') => (Throw what, m')
    | (Undefined, m') => (Undefined, m')
    end.

Definition throw {A : Type} (what : string) : M A := fun m => (Throw what, m).
Definition undefined {A : Type} : M A := fun m => (Undefined, m).
Definition get : M Mpris := fun m => (Ret m, m).
Definition modify (f : Mpris -> Mpris) : M unit := fun m => (Ret tt, f m).
Definition lift {A : Type} (o : outcome A) : M A := fun m => (o, m).

Declare Scope mpris_scope.
Delimit Scope mpris_scope with mpris.
Notation "x <- c ;; k" := (bind c (fun x => k))
  (at level 61, c at next level, right associativity) : mpris_scope.
Notation "c ;; k" := (bind c (fun _ => k))
  (at level 61, right associativity) : mpris_scope.
Local Open Scope mpris_scope.

Definition emit (e : Event) : M unit :=
  modify (fun m => set_trace (trace m ++ [e]) m).

(** [spdlog::debug] / [warn] / [error] *)
Definition log (lvl : Level) (msg : string) : M unit := emit (Log lvl msg).

(** [*o] on a [std::optional]: undefined when [o] holds no value. *)
Definition deref {A : Type} (o : option A) : M A :=
  match o with
  | Some a => ret a
  | None => undefined
  end.

Definition is_some {A : Type} (o : option A) : bool :=
  match o with Some _ => true | None => false end.

(** [Gtk::StyleContext] of [box_] *)
Definition has_class (c : string) (classes : list string) : bool :=
  existsb (String.eqb c) classes.
Definition remove_class (c : string) (classes : list string) : list string :=
  filter (fun x => negb (String.eqb c x)) classes.
Definition add_class (c : string) (classes : list string) : list string :=
  if has_class c classes then classes else classes ++ [c].

(** ** Mpris::getIcon *)
Definition getIcon (icons : Json) (key : string) : string :=
  if JsonValue.isObject icons then
    if JsonValue.isString (JsonValue.member icons key) then
      JsonValue.asString (JsonValue.member icons key)
    else if JsonValue.isString (JsonValue.member icons "default") then
      JsonValue.asString (JsonValue.member icons "default")
    else ""
  else "".

(** ** The signal callbacks

    Each is a static function receiving the object as [gpointer data];
    a null [data] returns at once. *)

Definition callback (body : M unit) (data : option Mpris) : option Mpris :=
  match data with
  | None => None
  | Some mpris => Some (snd (body mpris))
  end.

Definition onPlayerNameAppeared (player_name : PlayerctlPlayerName)
  : option Mpris -> option Mpris :=
  callback (
    log debug ("mpris: name-appeared callback: " ++ pn_name player_name) ;;
    emit (Sleep 1) ;;
    modify (set_player None) ;;
    emit DpEmit).

Definition onPlayerNameVanished (player_name : PlayerctlPlayerName)
  : option Mpris -> option Mpris :=
  callback (
    log debug ("mpris: name-vanished callback: " ++ pn_name player_name) ;;
    modify (set_player None) ;;
    emit DpEmit).

Definition onPlayerPlay : option Mpris -> option Mpris :=
  callback (log debug "mpris: player-play callback" ;; emit DpEmit).

Definition onPlayerPause : option Mpris -> option Mpris :=
  callback (log debug "mpris: player-pause callback" ;; emit DpEmit).

Definition onPlayerStop : option Mpris -> option Mpris :=
  callback (
    log debug "mpris: player-stop callback" ;;
    modify (set_event_box_ false) ;;
    emit DpEmit).

Definition onPlayerMetadata : option Mpris -> option Mpris :=
  callback (log debug "mpris: player-metadata callback" ;; emit DpEmit).

(** The wall-clock second at which each [dp.emit()] of a trace happens,
    when the trace starts at second [now]: only [sleep] lets time pass. *)
Fixpoint emit_times (now : nat) (events : list Event) : list nat :=
  match events with
  | [] => []
  | Sleep n :: rest => emit_times (now + n) rest
  | DpEmit :: rest => now :: emit_times now rest
  | _ :: rest => emit_times now rest
  end.

Section Members.

Context {host : Host}.

(** ** Mpris::getPlayerInfo *)

(** The [errorexit:] label. *)
Definition errorexit (info : PlayerInfo) (message : string)
  : M (option PlayerInfo) :=
  log error ("mpris[" ++ name info ++ "]: " ++ message) ;;
  ret None.

(** [if (error) goto errorexit;] after the call answered by [r]. *)
Definition or_errorexit (r : GReply) (info : PlayerInfo)
  (next : M (option PlayerInfo)) : M (option PlayerInfo) :=
  match gerror r with
  | Some message => errorexit info message
  | None => next
  end.

Definition store_artist (v : string) (i : PlayerInfo) : PlayerInfo :=
  {| name := name i; status := status i; status_string := status_string i;
     artist := Some v; album := album i; title := title i;
     length := length i |}.

Definition store_album (v : string) (i : PlayerInfo) : PlayerInfo :=
  {| name := name i; status := status i; status_string := status_string i;
     artist := artist i; album := Some v; title := title i;
     length := length i |}.

Definition store_title (v : string) (i : PlayerInfo) : PlayerInfo :=
  {| name := name i; status := status i; status_string := status_string i;
     artist := artist i; album := album i; title := Some v;
     length := length i |}.

Definition store_length (v : string) (i : PlayerInfo) : PlayerInfo :=
  {| name := name i; status := status i; status_string := status_string i;
     artist := artist i; album := album i; title := title i;
     length := Some v |}.

(** The block shared by artist, album and title: a non-null, non-empty
    answer is escaped, stored and logged. *)
Definition fetch_text (field : string) (r : GReply)
  (store : string -> PlayerInfo -> PlayerInfo) (info : PlayerInfo)
  : M PlayerInfo :=
  match value r with
  | Some text =>
      if (0 <? String.length text)%nat then
        log debug ("mpris[" ++ name info ++ "]: " ++ field ++ " = " ++ text) ;;
        ret (store (escape_text text) info)
      else ret info
  | None => ret info
  end.

(** The [mpris:length] block. *)
Definition fetch_length (r : GReply) (info : PlayerInfo) : M PlayerInfo :=
  match value r with
  | Some length_ =>
      let len := CStr.strtol length_ in
      match length_of_microseconds len with
      | Some text =>
          log debug ("mpris[" ++ name info ++ "]: mpris:length = " ++ text) ;;
          ret (store_length text info)
      | None => ret info
      end
  | None => ret info
  end.

(** Lines 166-178: the name shown for the player. *)
Definition resolve_name (bus : Bus) (m : Mpris) : M string :=
  let player_name := player_ m in
  if (player_name =? "playerctld")%string then
    let '(players, err) := list_players bus in
    match err with
    | Some message => throw ("unable to list players: " ++ message)
    | None =>
        match players with
        | first :: _ => ret (pn_name first)
        | [] => ret player_name
        end
    end
  else ret player_name.

Definition getPlayerInfo (bus : Bus) : M (option PlayerInfo) :=
  m <- get ;;
  match player m with
  | None =>
      log debug ("mpris[" ++ player_ m ++ "]: no player") ;;
      ret None
  | Some p =>
      let player_status := prop_status bus p in
      let player_playback_status := prop_playback_status bus p in
      player_name <- resolve_name bus m ;;
      if existsb (fun pn => (player_name =? pn)%string) (ignored_players_ m) then
        log warn ("mpris[" ++ player_name ++ "]: ignoring player update") ;;
        ret None
      else
        (* make status lowercase *)
        player_status <- deref player_status ;;
        let player_status := CStr.lower_first player_status in
        let info :=
          {| name := player_name; status := player_playback_status;
             status_string := player_status;
             artist := None; album := None; title := None; length := None |} in
        let artist_ := get_artist bus p in
        info <- fetch_text "artist" artist_ store_artist info ;;
        or_errorexit artist_ info (
        let album_ := get_album bus p in
        info <- fetch_text "album" album_ store_album info ;;
        or_errorexit album_ info (
        let title_ := get_title bus p in
        info <- fetch_text "title" title_ store_title info ;;
        or_errorexit title_ info (
        let length_ := print_metadata_prop bus p "mpris:length" in
        info <- fetch_length length_ info ;;
        or_errorexit length_ info (
        ret (Some info)))))
  end.

(** ** Mpris::handleToggle *)

(** Lines 273-279, after the switch. *)
Definition after_builtin (info : PlayerInfo) (err : option string) : M bool :=
  match err with
  | Some message =>
      log error ("mpris[" ++ name info
                 ++ "]: error running builtin on-click action: " ++ message) ;;
      ret false
  | None => ret true
  end.

(** [playerctl_player_play_pause(player, &error)] and its siblings; on a
    null handle the library returns without touching [error]. *)
Definition builtin (bus : Bus) (c : Transport) : M (option string) :=
  m <- get ;;
  emit (Issue c) ;;
  ret (match player m with
       | Some p => command_error bus p c
       | None => None
       end).

(** One [case] of the switch: the override check, else the built-in. *)
Definition button_case (bus : Bus) (e : GdkEventButton) (info : PlayerInfo)
  (key : string) (c : Transport) : M bool :=
  m <- get ;;
  if JsonValue.isString (JsonValue.member (config_ m) key) then
    emit (ParentToggle e) ;;
    ret (AModule_handleToggle e)
  else
    err <- builtin bus c ;;
    after_builtin info err.

Definition handleToggle (bus : Bus) (e : GdkEventButton) : M bool :=
  info <- getPlayerInfo bus ;;
  match info with
  | None => ret false
  | Some info =>
      match type e with
      | GDK_BUTTON_PRESS =>
          match button e with
          | 1%N => button_case bus e info "on-click" PlayPause
          | 2%N => button_case bus e info "on-middle-click" Previous
          | 3%N => button_case bus e info "on-right-click" Next
          | _ => after_builtin info None
          end
      | _ => after_builtin info None
      end
  end.

(** ** Mpris::update *)

Definition is_empty (s : string) : bool :=
  match s with EmptyString => true | String _ _ => false end.

Definition is_stopped (s : PlayerctlPlaybackStatus) : bool :=
  match s with PLAYERCTL_PLAYBACK_STATUS_STOPPED => true | _ => false end.

(** Lines 283-298: open the connection when there is none.  The handle is
    assigned before the error is looked at. *)
Definition ensure_player (bus : Bus) : M unit :=
  m <- get ;;
  match player m with
  | Some _ => ret tt
  | None =>
      let '(handle, err) := new_from_name bus (player_ m) in
      modify (set_player handle) ;;
      match err with
      | Some message =>
          throw ("unable to connect to player " ++ player_ m ++ ": " ++ message)
      | None => ret tt
      end
  end.

(** Lines 319-333, statement by statement as the compiler reads them:
    the two inner [if]s guard only the separator, so the album and the
    title are dereferenced on every path. *)
Definition dynamic_of (info : PlayerInfo) : M string :=
  let dynamic := "" in
  let dynamic :=
    match artist info with Some a => dynamic ++ a | None => dynamic end in
  let dynamic :=
    if is_some (album info) then
      if is_some (artist info) then dynamic ++ " - " else dynamic
    else dynamic in
  album_ <- deref (album info) ;;
  let dynamic := dynamic ++ album_ in
  let dynamic :=
    if is_some (title info) then
      if is_some (artist info) || is_some (album info)
      then dynamic ++ " - " else dynamic
    else dynamic in
  title_ <- deref (title info) ;;
  let dynamic := dynamic ++ title_ in
  let dynamic :=
    match length info with
    | Some l => dynamic ++ " " ++ "<small>" ++ "[" ++ l ++ "]" ++ "</small>"
    | None => dynamic
    end in
  ret dynamic.

(** Lines 336-342 and 345-351: replace the class set for the previous
    status (player) by the one for the current one. *)
Definition restyle (last current : string) (classes : list string)
  : list string :=
  let classes :=
    if negb (is_empty last) && has_class last classes
    then remove_class last classes else classes in
  if negb (has_class current classes) then add_class current classes
  else classes.

(** Lines 353-364. *)
Definition select_format (m : Mpris) (s : PlayerctlPlaybackStatus) : string :=
  let formatstr := format_ m in
  match s with
  | PLAYERCTL_PLAYBACK_STATUS_PLAYING =>
      if negb (is_empty (format_playing_ m)) then format_playing_ m
      else formatstr
  | PLAYERCTL_PLAYBACK_STATUS_PAUSED =>
      if negb (is_empty (format_paused_ m)) then format_paused_ m
      else formatstr
  | PLAYERCTL_PLAYBACK_STATUS_STOPPED =>
      if negb (is_empty (format_stopped_ m)) then format_stopped_ m
      else formatstr
  end.

Definition update (bus : Bus) : M unit :=
  ensure_player bus ;;
  opt <- getPlayerInfo bus ;;
  match opt with
  | None =>
      modify (set_event_box_ false) ;;
      emit ParentUpdate
  | Some info =>
      if is_stopped (status info) then
        log debug ("mpris[" ++ name info ++ "]: player stopped") ;;
        modify (set_event_box_ false) ;;
        emit ParentUpdate
      else
        log debug ("mpris[" ++ name info ++ "]: running update") ;;
        dynamic <- dynamic_of info ;;
        (* set css class for player status *)
        modify (fun m => set_box_ (restyle (lastStatus m) (status_string info) (box_ m)) m) ;;
        modify (set_lastStatus (status_string info)) ;;
        (* set css class for player name *)
        modify (fun m => set_box_ (restyle (lastPlayer m) (name info) (box_ m)) m) ;;
        modify (set_lastPlayer (name info)) ;;
        m <- get ;;
        let formatstr := select_format m (status info) in
        artist_ <- deref (artist info) ;;
        title_ <- deref (title info) ;;
        album_ <- deref (album info) ;;
        length_ <- deref (length info) ;;
        label_format <- lift (fmt_format formatstr
          [ ("player", name info); ("status", status_string info);
            ("artist", artist_); ("title", title_);
            ("album", album_); ("length", length_);
            ("dynamic", dynamic);
            ("player_icon",
             getIcon (JsonValue.member (config_ m) "player-icons") (name info));
            ("status_icon",
             getIcon (JsonValue.member (config_ m) "status-icons")
                     (status_string info)) ]) ;;
        modify (set_label_ label_format) ;;
        modify (set_event_box_ true) ;;
        (* call parent update *)
        emit ParentUpdate
  end.

(** Modelled from the spec: the refresh pass which the host runs each time
    [dp] fires; the dispatcher connection is made outside this file.
    Spec sections 4.6 and 7: a pass performs the update, and a connection
    or directory error is logged and aborts the pass, with no crash. *)
Definition refresh_pass (bus : Bus) : M unit :=
  fun m =>
    match update bus m with
    | (Throw what, m') => log error what m'
    | done => done
    end.

End Members.

(** ** A concrete host

    Used to run the module on concrete inputs: markup escaping of the
    five characters special to Pango markup, and replacement fields
    [{name}] with the escapes [{{] and [}}].  The theorems below hold for
    every [Host]. *)

Module Reference.

Fixpoint escape_text (s : string) : string :=
  match s with
  | EmptyString => EmptyString
  | String c rest =>
      (if Ascii.eqb c "&" then "&amp;"
       else if Ascii.eqb c "<" then "&lt;"
       else if Ascii.eqb c ">" then "&gt;"
       else if Ascii.eqb c "'" then "&apos;"
       else if Ascii.eqb c (ascii_of_N 34) then "&quot;"
       else String c EmptyString) ++ escape_text rest
  end.

Fixpoint lookup_arg (key : string) (args : list (string * string))
  : option string :=
  match args with
  | [] => None
  | (k, v) :: rest => if String.eqb k key then Some v else lookup_arg key rest
  end.

(** [field] is the name being read between braces, if any. *)
Fixpoint render (args : list (string * string)) (s : string)
  (field : option string) (out : string) : outcome string :=
  match s, field with
  | EmptyString, None => Ret out
  | EmptyString, Some _ => Throw "invalid format string"
  | String c rest, Some key =>
      if Ascii.eqb c "}" then
        match lookup_arg key args with
        | Some v => render args rest None (out ++ v)
        | None => Throw "argument not found"
        end
      else render args rest (Some (key ++ String c EmptyString)) out
  | String c rest, None =>
      if Ascii.eqb c "{" then
        match rest with
        | String "{"%char rest' => render args rest' None (out ++ "{")
        | _ => render args rest (Some EmptyString) out
        end
      else if Ascii.eqb c "}" then
        match rest with
        | String "}"%char rest' => render args rest' None (out ++ "}")
        | _ => Throw "unmatched '}' in format string"
        end
      else render args rest None (out ++ String c EmptyString)
  end.

Definition fmt_format (s : string) (args : list (string * string))
  : outcome string :=
  render args s None EmptyString.

Definition host : Host :=
  Build_Host escape_text fmt_format (fun _ => true).

End Reference.

(** ** Vocabulary of the specification *)

Section Vocabulary.

Context {host : Host}.

(** An optional text field of a snapshot, as answered by the bus:
    present only when the answer is a non-empty string. *)
Definition text_field (r : GReply) : option string :=
  match value r with
  | Some text =>
      if (0 <? String.length text)%nat then Some (escape_text text) else None
  | None => None
  end.

(** The length field: present only for a duration above zero. *)
Definition length_field (r : GReply) : option string :=
  match value r with
  | Some length_ => length_of_microseconds (CStr.strtol length_)
  | None => None
  end.

Definition clean (r : GReply) : bool := negb (is_some (gerror r)).

(** No per-field fetch reports an error. *)
Definition fetches_clean (bus : Bus) (p : PlayerctlPlayer) : bool :=
  clean (get_artist bus p) && clean (get_album bus p)
  && clean (get_title bus p)
  && clean (print_metadata_prop bus p "mpris:length").

(** The fully populated snapshot: every field holds what its query
    answered. *)
Definition snapshot (bus : Bus) (p : PlayerctlPlayer)
  (player_name raw : string) : PlayerInfo :=
  {| name := player_name;
     status := prop_playback_status bus p;
     status_string := CStr.lower_first raw;
     artist := text_field (get_artist bus p);
     album := text_field (get_album bus p);
     title := text_field (get_title bus p);
     length := length_field (print_metadata_prop bus p "mpris:length") |}.

Definition ignored (m : Mpris) (player_name : string) : bool :=
  existsb (fun pn => (player_name =? pn)%string) (ignored_players_ m).

(** The outcome of the fetch, case by case. *)
Definition fetch_result (bus : Bus) (m : Mpris)
  : outcome (option PlayerInfo) :=
  match player m with
  | None => Ret None
  | Some p =>
      match fst (resolve_name bus m m) with
      | Ret player_name =>
          if ignored m player_name then Ret None
          else
            match prop_status bus p with
            | None => Undefined
            | Some raw =>
                if fetches_clean bus p
                then Ret (Some (snapshot bus p player_name raw))
                else Ret None
            end
      | Throw what => Throw what
      | Undefined => Undefined
      end
  end.

End Vocabulary.

(** "Either a snapshot or no data": a normal return. *)
Definition snapshot_or_no_data {A : Type} (o : outcome (option A)) : Prop :=
  o = Ret None \/ exists info, o = Ret (Some info).

Definition status_tokens : list string := ["playing"; "paused"; "stopped"].

(** The status texts which the first-letter lowercasing sends to a token. *)
Definition status_texts : list string :=
  ["Playing"; "playing"; "Paused"; "paused"; "Stopped"; "stopped"].

(** The events which [c] appended to the trace when run on [m]. *)
Definition appended {A : Type} (c : M A) (m : Mpris) (evs : list Event) : Prop :=
  trace (snd (c m)) = (trace m ++ evs)%list.

(** A click: the event GDK delivers for each press of a button. *)
Definition click (b : N) : GdkEventButton :=
  {| type := GDK_BUTTON_PRESS; button := b |}.

(** The built-in bindings and the configuration key overriding each. *)
Definition binding (b : N) : option (string * Transport) :=
  match b with
  | 1%N => Some ("on-click", PlayPause)
  | 2%N => Some ("on-middle-click", Previous)
  | 3%N => Some ("on-right-click", Next)
  | _ => None
  end.

Definition set_format_stopped_ (v : string) (m : Mpris) : Mpris :=
  {| config_ := config_ m; format_ := format_ m;
     format_playing_ := format_playing_ m; format_paused_ := format_paused_ m;
     format_stopped_ := v; player_ := player_ m;
     ignored_players_ := ignored_players_ m; player := player m;
     lastStatus := lastStatus m; lastPlayer := lastPlayer m;
     label_ := label_ m; box_ := box_ m; event_box_ := event_box_ m;
     trace := trace m |}.

(** The host with another formatter. *)
Definition with_formatter (host : Host)
  (f : string -> list (string * string) -> outcome string) : Host :=
  Build_Host (@escape_text host) f (@AModule_handleToggle host).

(** ** Sample inputs *)

Module Sample.

Definition reply (v : string) : GReply :=
  {| value := Some v; gerror := None |}.

Definition failure (message : string) : GReply :=
  {| value := None; gerror := Some message |}.

Definition absent : GReply := {| value := None; gerror := None |}.

(** A player named "spotify" playing title C of album B by artist A,
    3 min 21 s long; every call succeeds. *)
Definition bus : Bus := {|
  new_from_name := fun n => (Some (Handle n), None);
  list_players := ([ {| pn_name := "spotify"; pn_instance := "spotify" |} ], None);
  prop_status := fun _ => Some "Playing";
  prop_playback_status := fun _ => PLAYERCTL_PLAYBACK_STATUS_PLAYING;
  get_artist := fun _ => reply "A";
  get_album := fun _ => reply "B";
  get_title := fun _ => reply "C";
  print_metadata_prop := fun _ _ => reply "201000000";
  command_error := fun _ _ => None |}.

Definition with_status (raw : option string) (s : PlayerctlPlaybackStatus)
  (b : Bus) : Bus := {|
  new_from_name := new_from_name b;
  list_players := list_players b;
  prop_status := fun _ => raw;
  prop_playback_status := fun _ => s;
  get_artist := get_artist b;
  get_album := get_album b;
  get_title := get_title b;
  print_metadata_prop := print_metadata_prop b;
  command_error := command_error b |}.

Definition with_artist (r : GReply) (b : Bus) : Bus := {|
  new_from_name := new_from_name b;
  list_players := list_players b;
  prop_status := prop_status b;
  prop_playback_status := prop_playback_status b;
  get_artist := fun _ => r;
  get_album := get_album b;
  get_title := get_title b;
  print_metadata_prop := print_metadata_prop b;
  command_error := command_error b |}.

Definition with_players (r : list PlayerctlPlayerName * option string)
  (b : Bus) : Bus := {|
  new_from_name := new_from_name b;
  list_players := r;
  prop_status := prop_status b;
  prop_playback_status := prop_playback_status b;
  get_artist := get_artist b;
  get_album := get_album b;
  get_title := get_title b;
  print_metadata_prop := print_metadata_prop b;
  command_error := command_error b |}.

Definition with_connect (r : option PlayerctlPlayer * option string)
  (b : Bus) : Bus := {|
  new_from_name := fun _ => r;
  list_players := list_players b;
  prop_status := prop_status b;
  prop_playback_status := prop_playback_status b;
  get_artist := get_artist b;
  get_album := get_album b;
  get_title := get_title b;
  print_metadata_prop := print_metadata_prop b;
  command_error := command_error b |}.

Definition with_command_error (r : option string) (b : Bus) : Bus := {|
  new_from_name := new_from_name b;
  list_players := list_players b;
  prop_status := prop_status b;
  prop_playback_status := prop_playback_status b;
  get_artist := get_artist b;
  get_album := get_album b;
  get_title := get_title b;
  print_metadata_prop := print_metadata_prop b;
  command_error := fun _ _ => r |}.

(** The object as constructed from an empty configuration, before the
    first pass. *)
Definition fresh : Mpris := {|
  config_ := JObject [];
  format_ := "{player} ({status}): {dynamic}";
  format_playing_ := ""; format_paused_ := ""; format_stopped_ := "";
  player_ := "playerctld"; ignored_players_ := []; player := None;
  lastStatus := ""; lastPlayer := ""; label_ := ""; box_ := [];
  event_box_ := true; trace := [] |}.

(** The same object once connected. *)
Definition connected : Mpris := set_player (Some (Handle "playerctld")) fresh.

Definition with_config (c : Json) (m : Mpris) : Mpris :=
  {| config_ := c; format_ := format_ m;
     format_playing_ := format_playing_ m; format_paused_ := format_paused_ m;
     format_stopped_ := format_stopped_ m; player_ := player_ m;
     ignored_players_ := ignored_players_ m; player := player m;
     lastStatus := lastStatus m; lastPlayer := lastPlayer m;
     label_ := label_ m; box_ := box_ m; event_box_ := event_box_ m;
     trace := trace m |}.

Definition with_format (f : string) (m : Mpris) : Mpris :=
  {| config_ := config_ m; format_ := f;
     format_playing_ := format_playing_ m; format_paused_ := format_paused_ m;
     format_stopped_ := format_stopped_ m; player_ := player_ m;
     ignored_players_ := ignored_players_ m; player := player m;
     lastStatus := lastStatus m; lastPlayer := lastPlayer m;
     label_ := label_ m; box_ := box_ m; event_box_ := event_box_ m;
     trace := trace m |}.

Definition info_ABC : PlayerInfo :=
  {| name := "spotify"; status := PLAYERCTL_PLAYBACK_STATUS_PLAYING;
     status_string := "playing"; artist := Some "A"; album := Some "B";
     title := Some "C"; length := Some "03:21" |}.

Definition info_title_only : PlayerInfo :=
  {| name := "spotify"; status := PLAYERCTL_PLAYBACK_STATUS_PLAYING;
     status_string := "playing"; artist := None; album := None;
     title := Some "C"; length := None |}.

(** The same player, stopped. *)
Definition stopped_bus : Bus :=
  with_status (Some "Stopped") PLAYERCTL_PLAYBACK_STATUS_STOPPED bus.

Definition info_stopped : PlayerInfo :=
  {| name := "spotify"; status := PLAYERCTL_PLAYBACK_STATUS_STOPPED;
     status_string := "stopped"; artist := Some "A"; album := Some "B";
     title := Some "C"; length := Some "03:21" |}.

(** The connected object with a command configured for the middle
    button. *)
Definition middle_overridden : Mpris :=
  with_config (JObject [("on-middle-click", JString "playerctl stop")])
    connected.

(** The directory listing fails. *)
Definition listing_fails : Bus := with_players ([], Some "bus down") bus.

(** The status query answers a null pointer. *)
Definition null_status : Bus :=
  with_status None PLAYERCTL_PLAYBACK_STATUS_PLAYING bus.

(** The artist query reports an error. *)
Definition artist_fails : Bus := with_artist (failure "timed out") bus.

End Sample.

(** The three ways in which a fetch ends when the status text is
    there: no data, the fully populated snapshot of a fetch without
    error, or the exception of the directory listing. *)
Definition all_or_nothing {host : Host} (bus : Bus) (m : Mpris)
  (o : outcome (option PlayerInfo)) : Prop :=
  o = Ret None
  \/ (exists p player_name raw,
        player m = Some p /\ prop_status bus p = Some raw
        /\ fetches_clean bus p = true
        /\ o = Ret (Some (snapshot bus p player_name raw)))
  \/ (exists message,
        player_ m = "playerctld"
        /\ snd (list_players bus) = Some message
        /\ o = Throw ("unable to list players: " ++ message)).

(** The fetch reaches the lowercasing of the status text of [p]. *)
Definition reaches_lowercasing (bus : Bus) (m : Mpris) (p : PlayerctlPlayer)
  : Prop :=
  player m = Some p
  /\ exists player_name,
       fst (resolve_name bus m m) = Ret player_name
       /\ ignored m player_name = false.

(** ** Properties of computations *)

(** [c] leaves every member as it is and only appends to the trace. *)
Definition logs_only {A : Type} (c : M A) : Prop :=
  forall m, exists evs, snd (c m) = set_trace (trace m ++ evs) m.

(** The two bus errors of a pass, with the text of the exception and the
    object at the point where it is thrown. *)
Inductive BusError (bus : Bus) (m : Mpris) : string -> Mpris -> Prop :=
| ConnectionError (handle : option PlayerctlPlayer) (message : string) :
    player m = None ->
    new_from_name bus (player_ m) = (handle, Some message) ->
    BusError bus m
      ("unable to connect to player " ++ player_ m ++ ": " ++ message)
      (set_player handle m)
| DirectoryError (m0 : Mpris) (p : PlayerctlPlayer)
    (players : list PlayerctlPlayerName) (message : string) :
    ensure_player bus m = (Ret tt, m0) ->
    player m0 = Some p ->
    player_ m = "playerctld" ->
    list_players bus = (players, Some message) ->
    BusError bus m ("unable to list players: " ++ message) m0.

(** Some optional field of the snapshot is absent. *)
Definition lacks_a_field (info : PlayerInfo) : bool :=
  negb (is_some (artist info) && is_some (title info)
        && is_some (album info) && is_some (length info)).

(** The status query of a connected player answers a non-null,
    non-empty string. *)
Definition status_non_empty (bus : Bus) (m : Mpris) : Prop :=
  forall p, player m = Some p ->
    exists raw, prop_status bus p = Some raw /\ raw <> "".

(** Case analysis on every scrutinee of the goal, innermost first. *)
Ltac crush_cases :=
  repeat match goal with
  | |- context [match ?x with _ => _ end] =>
      match x with
      | context [match _ with _ => _ end] => fail 1
      | _ => destruct x eqn:?; simpl
      end
  end.

Ltac unfold_fetch :=
  unfold getPlayerInfo, resolve_name, or_errorexit, errorexit,
    fetch_text, fetch_length, log, emit, modify, ret, throw, undefined,
    deref, get, bind; simpl.

(** ** Mpris::Mpris *)

Module JsonConv.

Definition isArray (j : Json) : bool :=
  match j with JArray _ => true | _ => false end.

(** [isUInt()] on an integer value: within [0, 2^32 - 1]. *)
Definition isUInt (j : Json) : bool :=
  match j with
  | JInt z => (0 <=? z) && (z <=? 2 ^ 32 - 1)
  | _ => false
  end.

(** [asUInt()] where [isUInt()] has been checked. *)
Definition asUInt (j : Json) : Z :=
  match j with JInt z => z | _ => 0 end.

(** [asString()] without a check before it: null is the empty string,
    booleans and integers are printed, arrays and objects are not
    convertible, which throws. *)
Definition asString (j : Json) : outcome string :=
  match j with
  | JNull => Ret ""
  | JBool b => Ret (if b then "true" else "false")
  | JInt z => Ret (if z <? 0 then "-" ++ CStr.decimal (- z) else CStr.decimal z)
  | JString s => Ret s
  | JArray _ | JObject _ => Throw "Type is not convertible to string"
  end.

Definition items (j : Json) : list Json :=
  match j with JArray l => l | _ => [] end.

End JsonConv.

Definition DEFAULT_FORMAT : string := "{player} ({status}): {dynamic}".

(** Lines 52-55: the loop pushing every element of the array, as a
    string, onto [ignored_players_]. *)
Fixpoint push_back_all (items : list Json) (acc : list string)
  : outcome (list string) :=
  match items with
  | [] => Ret acc
  | it :: rest =>
      match JsonConv.asString it with
      | Ret s => push_back_all rest (acc ++ [s])
      | Throw what => Throw what
      | Undefined => Undefined
      end
  end.

(** [config_[key]] when it is a string, else the value the member has. *)
Definition string_option (config : Json) (key current : string) : string :=
  if JsonValue.isString (JsonValue.member config key)
  then JsonValue.asString (JsonValue.member config key)
  else current.

(** Lines 69-72: one run of the function given to the sleeper thread. *)
Definition timer_body (interval : Z) : M unit :=
  emit DpEmit ;;
  emit (Sleep (Z.to_nat interval)).

(** What the constructor leaves: the object, [interval_] in seconds and
    the function of [thread_], if one was assigned. *)
Record Constructed : Type := {
  object : Mpris;
  interval_ : Z;
  thread_ : option (M unit)
}.

(** The constructor.  [manager_error] is the error of
    [playerctl_player_manager_new], [classes] and [visible] are the style
    classes of the new box and the visibility of the event box, which
    the toolkit and the parent class decide. *)
Definition Mpris_new (config : Json) (manager_error : option string)
  (classes : list string) (visible : bool) : outcome Constructed :=
  let format_ := string_option config "format" DEFAULT_FORMAT in
  let format_playing_ := string_option config "format-playing" "" in
  let format_paused_ := string_option config "format-paused" "" in
  let format_stopped_ := string_option config "format-stopped" "" in
  let interval_ :=
    if JsonConv.isUInt (JsonValue.member config "interval")
    then JsonConv.asUInt (JsonValue.member config "interval") else 0 in
  let player_ := string_option config "player" "playerctld" in
  match
    (if JsonConv.isArray (JsonValue.member config "ignored-players")
     then push_back_all
            (JsonConv.items (JsonValue.member config "ignored-players")) []
     else Ret [])
  with
  | Ret ignored_players_ =>
      match manager_error with
      | Some message =>
          Throw ("unable to create MPRIS client: " ++ message)
      | None =>
          Ret {| object :=
                   {| config_ := config; format_ := format_;
                      format_playing_ := format_playing_;
                      format_paused_ := format_paused_;
                      format_stopped_ := format_stopped_;
                      player_ := player_;
                      ignored_players_ := ignored_players_;
                      player := None; lastStatus := ""; lastPlayer := "";
                      label_ := ""; box_ := classes; event_box_ := visible;
                      (* trigger initial update *)
                      trace := [DpEmit] |};
                 interval_ := interval_;
                 (* allow setting an interval count that triggers
                    periodic refreshes *)
                 thread_ := if 0 <? interval_
                            then Some (timer_body interval_) else None |}
      end
  | Throw what => Throw what
  | Undefined => Undefined
  end.

(** ** Signal connections *)

Definition Callback : Type := option Mpris -> option Mpris.

(** Lines 294-297: the handlers which [update] connects to a new player,
    in the order of the argument list. *)
Definition player_connections : list (string * Callback) :=
  [ ("play", onPlayerPlay); ("pause", onPlayerPause);
    ("stop", onPlayerStop); ("stop", onPlayerStop);
    ("metadata", onPlayerMetadata) ].

(** Lines 64-65: the handlers connected to the manager, for the player
    name which the signal carries. *)
Definition manager_connections (player_name : PlayerctlPlayerName)
  : list (string * Callback) :=
  [ ("name-appeared", onPlayerNameAppeared player_name);
    ("name-vanished", onPlayerNameVanished player_name) ].

(** Emission of [signal]: every handler connected to it runs on the
    object, in the order of connection. *)
Fixpoint signal_emit (connections : list (string * Callback))
  (signal : string) (data : option Mpris) : option Mpris :=
  match connections with
  | [] => data
  | (s, handler) :: rest =>
      signal_emit rest signal
        (if (s =? signal)%string then handler data else data)
  end.

(** ** Relations between the object before and after *)

(** Every computation step relates the object before to the one after. *)
Definition preserves {A : Type} (R : Mpris -> Mpris -> Prop) (c : M A)
  : Prop :=
  forall m, R m (snd (c m)).

Definition is_log (e : Event) : bool :=
  match e with Log _ _ => true | _ => false end.

(** A transport command or the hand-over to the parent's click handler. *)
Definition is_action (e : Event) : bool :=
  match e with Issue _ | ParentToggle _ => true | _ => false end.

(** Only the trace differs, by events which all satisfy [allowed]. *)
Definition only_appends (allowed : Event -> bool) (m m' : Mpris) : Prop :=
  exists evs,
    m' = set_trace (trace m ++ evs) m /\ forallb allowed evs = true.

(** The members read from the configuration are the same. *)
Definition same_settings (m m' : Mpris) : Prop :=
  config_ m' = config_ m /\ format_ m' = format_ m
  /\ format_playing_ m' = format_playing_ m
  /\ format_paused_ m' = format_paused_ m
  /\ format_stopped_ m' = format_stopped_ m
  /\ player_ m' = player_ m
  /\ ignored_players_ m' = ignored_players_ m.

Definition same_handle (m m' : Mpris) : Prop := player m' = player m.

(** The message of the first of the four queries, in the order artist,
    album, title, length, which reports an error. *)
Definition first_error (bus : Bus) (p : PlayerctlPlayer) : option string :=
  match gerror (get_artist bus p) with
  | Some e => Some e
  | None =>
      match gerror (get_album bus p) with
      | Some e => Some e
      | None =>
          match gerror (get_title bus p) with
          | Some e => Some e
          | None => gerror (print_metadata_prop bus p "mpris:length")
          end
      end
  end.

(** The nine named arguments of the label. *)
Definition label_args (m : Mpris) (info : PlayerInfo)
  (artist_ title_ album_ length_ dynamic : string)
  : list (string * string) :=
  [ ("player", name info); ("status", status_string info);
    ("artist", artist_); ("title", title_);
    ("album", album_); ("length", length_);
    ("dynamic", dynamic);
    ("player_icon",
     getIcon (JsonValue.member (config_ m) "player-icons") (name info));
    ("status_icon",
     getIcon (JsonValue.member (config_ m) "status-icons")
             (status_string info)) ].

(** The dynamic text of a snapshot with every field. *)
Definition dynamic_text (artist_ album_ title_ length_ : string) : string :=
  artist_ ++ " - " ++ album_ ++ " - " ++ title_
  ++ " <small>[" ++ length_ ++ "]</small>".

Definition is_error_log (e : Event) : bool :=
  match e with Log error _ => true | _ => false end.

(** The name under which a snapshot is shown: under the alias, the first
    of the listed players if there is one. *)
Definition shown_name (bus : Bus) (m : Mpris) : string :=
  if (player_ m =? "playerctld")%string then
    match fst (list_players bus) with
    | first :: _ => pn_name first
    | [] => player_ m
    end
  else player_ m.

(** An array or an object, which [asString] does not convert. *)
Definition not_convertible (j : Json) : bool :=
  match j with JArray _ | JObject _ => true | _ => false end.

(** ** More sample inputs *)

Module More.

(** The connected sample object, ignoring the player "spotify". *)
Definition ignoring : Mpris := {|
  config_ := JObject [];
  format_ := DEFAULT_FORMAT;
  format_playing_ := ""; format_paused_ := ""; format_stopped_ := "";
  player_ := "playerctld"; ignored_players_ := ["spotify"];
  player := Some (Handle "playerctld");
  lastStatus := ""; lastPlayer := ""; label_ := ""; box_ := [];
  event_box_ := true; trace := [] |}.

(** A connected object bound to the player "vlc". *)
Definition bound_to_vlc : Mpris := {|
  config_ := JObject [];
  format_ := DEFAULT_FORMAT;
  format_playing_ := ""; format_paused_ := ""; format_stopped_ := "";
  player_ := "vlc"; ignored_players_ := [];
  player := Some (Handle "vlc");
  lastStatus := ""; lastPlayer := ""; label_ := ""; box_ := [];
  event_box_ := true; trace := [] |}.

(** The sample object right after a name-vanished signal for "vlc". *)
Definition after_vanish : Mpris :=
  set_trace [Log debug "mpris: name-vanished callback: vlc"; DpEmit]
    (set_player None Sample.connected).

(** What the fetch leaves of the connected sample object. *)
Definition fetched (host : Host) (bus : Bus) : Mpris :=
  snd (@getPlayerInfo host bus Sample.connected).

Definition double_click : GdkEventButton :=
  {| type := GDK_2BUTTON_PRESS; button := 1 |}.

Definition config_interval : Json :=
  JObject [("interval", JInt 5); ("player", JString "vlc")].

(** The object which the constructor makes of [config_interval]. *)
Definition constructed_interval : Constructed := {|
  object := {|
    config_ := config_interval;
    format_ := DEFAULT_FORMAT;
    format_playing_ := ""; format_paused_ := ""; format_stopped_ := "";
    player_ := "vlc"; ignored_players_ := []; player := None;
    lastStatus := ""; lastPlayer := ""; label_ := ""; box_ := [];
    event_box_ := false; trace := [DpEmit] |};
  interval_ := 5;
  thread_ := Some (timer_body 5) |}.

Definition config_ignoring : Json :=
  JObject [("ignored-players", JArray (map JString ["spotify"; "vlc"]))].

Definition config_nested : Json :=
  JObject [("ignored-players", JArray [JString "spotify"; JArray []])].

End More.

(** Modelled from the spec: the text of the "status" property of a
    player.  The property is not code of this module: the library
    derives it from the playback status of the same player, which
    section 3 words as the status string being the textual form of the
    status. *)
Definition playback_status_text (s : PlayerctlPlaybackStatus) : string :=
  match s with
  | PLAYERCTL_PLAYBACK_STATUS_PLAYING => "Playing"
  | PLAYERCTL_PLAYBACK_STATUS_PAUSED => "Paused"
  | PLAYERCTL_PLAYBACK_STATUS_STOPPED => "Stopped"
  end.

(** The two properties read at line 164 belong together: the status
    text of the connected player is the text of its playback status. *)
Definition status_text_of_playback_status (bus : Bus) (m : Mpris) : Prop :=
  forall p, player m = Some p ->
    prop_status bus p
    = Some (playback_status_text (prop_playback_status bus p)).

(** ** Lemmas on the monad *)

Lemma set_trace_same (m : Mpris) : set_trace (trace m) m = m.
Proof. destruct m; reflexivity. Qed.

Lemma set_trace_twice (m : Mpris) (t u : list Event) :
  set_trace u (set_trace t m) = set_trace u m.
Proof. reflexivity. Qed.

Lemma logs_only_ret {A : Type} (a : A) : logs_only (ret a).
Proof.
  intros m. exists []. simpl. now rewrite app_nil_r, set_trace_same.
Qed.

Lemma logs_only_lift {A : Type} (o : outcome A) : logs_only (lift o).
Proof.
  intros m. exists []. simpl. now rewrite app_nil_r, set_trace_same.
Qed.

Lemma logs_only_throw {A : Type} (what : string) : logs_only (@throw A what).
Proof.
  intros m. exists []. simpl. now rewrite app_nil_r, set_trace_same.
Qed.

Lemma logs_only_undefined {A : Type} : logs_only (@undefined A).
Proof.
  intros m. exists []. simpl. now rewrite app_nil_r, set_trace_same.
Qed.

Lemma logs_only_get : logs_only get.
Proof.
  intros m. exists []. simpl. now rewrite app_nil_r, set_trace_same.
Qed.

Lemma logs_only_emit (e : Event) : logs_only (emit e).
Proof. intros m. exists [e]. reflexivity. Qed.

Lemma logs_only_log (lvl : Level) (msg : string) : logs_only (log lvl msg).
Proof. apply logs_only_emit. Qed.

Lemma logs_only_deref {A : Type} (o : option A) : logs_only (deref o).
Proof. destruct o; [apply logs_only_ret | apply logs_only_undefined]. Qed.

Lemma logs_only_bind {A B : Type} (c : M A) (k : A -> M B) :
  logs_only c -> (forall a, logs_only (k a)) -> logs_only (bind c k).
Proof.
  intros Hc Hk m. unfold bind.
  destruct (Hc m) as [evs Hevs].
  destruct (c m) as [[a | what | ] m'] eqn:Hrun; simpl in Hevs; subst m'.
  - destruct (Hk a (set_trace (trace m ++ evs) m)) as [evs' Hevs'].
    exists (evs ++ evs')%list. rewrite Hevs'. simpl.
    now rewrite app_assoc.
  - now exists evs.
  - now exists evs.
Qed.

Create HintDb mpris.

#[local] Hint Resolve logs_only_ret logs_only_lift logs_only_throw
  logs_only_undefined logs_only_get logs_only_emit logs_only_log
  logs_only_deref : mpris.

(** Decompose a computation along its binds and its case analyses. *)
Ltac logs_only_tac :=
  repeat first
    [ solve [auto with mpris]
    | apply logs_only_bind; [ | intros ]
    | match goal with
      | |- logs_only (match ?x with _ => _ end) => destruct x
      | |- logs_only (if ?x then _ else _) => destruct x
      | |- logs_only (let '(_, _) := ?x in _) => destruct x
      end ].

Section Fetch.

Context {host : Host}.

Lemma logs_only_getPlayerInfo (bus : Bus) : logs_only (getPlayerInfo bus).
Proof.
  unfold getPlayerInfo, resolve_name, or_errorexit, errorexit, fetch_text,
    fetch_length.
  logs_only_tac.
Qed.

(** What the fetch leaves of the object. *)
Lemma getPlayerInfo_frame (bus : Bus) (m m1 : Mpris)
  (r : outcome (option PlayerInfo)) :
  getPlayerInfo bus m = (r, m1) ->
  exists evs, m1 = set_trace (trace m ++ evs) m.
Proof.
  intros Hrun. destruct (logs_only_getPlayerInfo bus m) as [evs Hevs].
  rewrite Hrun in Hevs. now exists evs.
Qed.

(** The outcome of the fetch is the one the case table gives. *)
Lemma getPlayerInfo_result (bus : Bus) (m : Mpris) :
  fst (getPlayerInfo bus m) = fetch_result bus m.
Proof.
  unfold fetch_result, fetches_clean, clean, snapshot, text_field,
    length_field, ignored.
  unfold_fetch.
  crush_cases; try reflexivity; congruence.
Qed.

(** The fetch reads neither the formatter nor the stopped template. *)
Lemma getPlayerInfo_ignores_templates (bus : Bus) (m : Mpris)
  (f : string -> list (string * string) -> outcome string) (v : string) :
  @getPlayerInfo (with_formatter host f) bus (set_format_stopped_ v m)
  = (fst (getPlayerInfo bus m),
     set_format_stopped_ v (snd (getPlayerInfo bus m))).
Proof.
  unfold_fetch.
  crush_cases; reflexivity.
Qed.

End Fetch.

(** ** The duration string *)

(** The three durations of the specification, in microseconds. *)
Example length_of_zero : length_of_microseconds 0 = None.
Proof. reflexivity. Qed.

Example length_of_125_seconds :
  length_of_microseconds 125000000 = Some "02:05".
Proof. vm_compute. reflexivity. Qed.

(** C3.  A duration of 0 microseconds gives no length field and
    125000000 microseconds give "02:05", but 3661000000 microseconds (one
    hour, one minute, one second) give "01:01:3601", not "01:01:01": the
    seconds are cast from [len - len_m], from which the hours were never
    taken off. *)
Theorem length_of_3661_seconds :
  length_of_microseconds 0 = None
  /\ length_of_microseconds 125000000 = Some "02:05"
  /\ length_of_microseconds 3661000000 = Some "01:01:3601".
Proof. repeat split; vm_compute; reflexivity. Qed.

(** Below one hour the string is the minutes and the seconds of the
    duration. *)
Lemma length_below_one_hour (len : Z) :
  0 < len < Chrono.us_per_hour ->
  length_of_microseconds len
  = Some (CStr.pad2 (len / Chrono.us_per_minute) ++ ":"
          ++ CStr.pad2 (len mod Chrono.us_per_minute / Chrono.us_per_second)).
Proof.
  intros [Hpos Hlt]. unfold length_of_microseconds.
  assert (Hh : Chrono.to_hours len = 0).
  { unfold Chrono.to_hours. apply Z.quot_small. lia. }
  rewrite Hh. replace (0 <? len) with true by (symmetry; lia).
  simpl (0 <? 0). cbv iota.
  replace (len - 0 * Chrono.us_per_hour) with len by lia.
  unfold Chrono.to_minutes, Chrono.to_seconds.
  assert (Hm : 0 < Chrono.us_per_minute) by reflexivity.
  assert (Hs : 0 < Chrono.us_per_second) by reflexivity.
  rewrite (Z.quot_div_nonneg len) by lia.
  assert (Hrem : len - len / Chrono.us_per_minute * Chrono.us_per_minute
                 = len mod Chrono.us_per_minute).
  { pose proof (Z.div_mod len Chrono.us_per_minute). lia. }
  rewrite Hrem.
  rewrite Z.quot_div_nonneg; [reflexivity | | lia].
  apply Z.mod_pos_bound. lia.
Qed.

(** From one hour on, the seconds printed carry the whole hours. *)
Lemma length_seconds_carry_hours (len : Z) :
  Chrono.us_per_hour <= len ->
  let len_h := Chrono.to_hours len in
  let len_m := Chrono.to_minutes (len - len_h * Chrono.us_per_hour) in
  3600 * len_h
  <= Chrono.to_seconds (len - len_m * Chrono.us_per_minute).
Proof.
  intros Hlen len_h len_m. subst len_h len_m.
  unfold Chrono.to_hours, Chrono.to_minutes, Chrono.to_seconds.
  assert (Hh : 0 < Chrono.us_per_hour) by reflexivity.
  assert (Hm : 0 < Chrono.us_per_minute) by reflexivity.
  assert (Hs : 0 < Chrono.us_per_second) by reflexivity.
  rewrite (Z.quot_div_nonneg len) by lia.
  set (h := len / Chrono.us_per_hour).
  assert (Hrem : len - h * Chrono.us_per_hour = len mod Chrono.us_per_hour).
  { pose proof (Z.div_mod len Chrono.us_per_hour). subst h. lia. }
  rewrite Hrem.
  pose proof (Z.mod_pos_bound len Chrono.us_per_hour Hh) as Hbound.
  rewrite (Z.quot_div_nonneg (len mod Chrono.us_per_hour)) by lia.
  set (r := len mod Chrono.us_per_hour) in *.
  assert (Hmr : r / Chrono.us_per_minute * Chrono.us_per_minute <= r).
  { pose proof (Z.div_mod r Chrono.us_per_minute).
    pose proof (Z.mod_pos_bound r Chrono.us_per_minute Hm). lia. }
  assert (Hlen' : len = h * Chrono.us_per_hour + r) by lia.
  assert (Hh0 : 0 <= h) by (subst h; apply Z.div_pos; lia).
  rewrite Z.quot_div_nonneg by lia.
  apply Z.div_le_lower_bound; [lia|].
  unfold Chrono.us_per_hour, Chrono.us_per_minute, Chrono.us_per_second in *.
  lia.
Qed.

(** ** The directory watcher *)

(** C6.  When a player name appears (whichever it is), the handle is
    dropped and exactly one refresh is requested, one second after the
    signal; when a player name vanishes, the handle is dropped and
    exactly one refresh is requested at the second of the signal.  No
    other member changes. *)
Theorem name_appeared_and_vanished
  (player_name : PlayerctlPlayerName) (m : Mpris) (now : nat) :
  let appeared :=
    [Log debug ("mpris: name-appeared callback: " ++ pn_name player_name);
     Sleep 1; DpEmit] in
  let vanished :=
    [Log debug ("mpris: name-vanished callback: " ++ pn_name player_name);
     DpEmit] in
  onPlayerNameAppeared player_name (Some m)
  = Some (set_trace (trace m ++ appeared) (set_player None m))
  /\ emit_times now appeared = [(now + 1)%nat]
  /\ onPlayerNameVanished player_name (Some m)
     = Some (set_trace (trace m ++ vanished) (set_player None m))
  /\ emit_times now vanished = [now].
Proof.
  intros appeared vanished. subst appeared vanished.
  unfold onPlayerNameAppeared, onPlayerNameVanished, callback.
  unfold log, emit, modify, bind. simpl.
  rewrite <- !app_assoc. simpl.
  repeat split; reflexivity.
Qed.

(** A callback without its object does nothing. *)
Lemma callback_without_object (body : M unit) : callback body None = None.
Proof. reflexivity. Qed.

(** ** The dynamic placeholder *)

(** C2 (counterexample).  With artist "A", album "B", title "C" and
    length "03:21" the dynamic text is not "A - B - C [03:21]": the length
    is wrapped in small-print markup. *)
Lemma dynamic_is_not_plain_brackets :
  fst (dynamic_of Sample.info_ABC Sample.fresh) <> Ret "A - B - C [03:21]".
Proof. vm_compute. discriminate. Qed.

(** With only the title present the album is dereferenced all the same. *)
Lemma dynamic_of_title_only :
  fst (dynamic_of Sample.info_title_only Sample.fresh) = Undefined.
Proof. reflexivity. Qed.

(** C2 (amended).  When the album and the title are present, the dynamic
    text is the artist followed by " - " (when there is an artist), the
    album, " - ", the title, and then, when there is a length,
    " <small>[length]</small>". *)
Theorem dynamic_of_album_and_title (info : PlayerInfo) (m : Mpris)
  (b c : string) :
  album info = Some b ->
  title info = Some c ->
  dynamic_of info m
  = (Ret (match artist info with Some a => a ++ " - " | None => "" end
          ++ b ++ " - " ++ c
          ++ match length info with
             | Some l => " <small>[" ++ l ++ "]</small>"
             | None => ""
             end), m).
Proof.
  intros Hb Hc. unfold dynamic_of. rewrite Hb, Hc.
  unfold deref, bind, ret. simpl.
  assert (Happ : forall x y z : string, ((x ++ y) ++ z = x ++ (y ++ z))%string).
  { induction x as [| ch x IH]; intros; simpl; [reflexivity | now rewrite IH]. }
  assert (Hnil : forall x : string, (x ++ "" = x)%string).
  { induction x as [| ch x IH]; simpl; [reflexivity | now rewrite IH]. }
  rewrite Bool.orb_true_r.
  destruct (artist info) as [a |]; destruct (length info) as [l |]; simpl;
    rewrite ?Happ, ?Hnil; reflexivity.
Qed.

Lemma dynamic_of_album_and_title_witness :
  dynamic_of Sample.info_ABC Sample.fresh
  = (Ret "A - B - C <small>[03:21]</small>", Sample.fresh).
Proof.
  exact (dynamic_of_album_and_title Sample.info_ABC Sample.fresh "B" "C"
           eq_refl eq_refl).
Defined.

(** ** The snapshot fetch *)

Lemma tolower_p (c : ascii) :
  CStr.tolower c = "p"%char <-> c = "P"%char \/ c = "p"%char.
Proof.
  destruct c as [[] [] [] [] [] [] [] []]; vm_compute; split; intros H;
    first [ discriminate H | now auto
          | destruct H as [H | H]; discriminate H ].
Qed.

Lemma tolower_s (c : ascii) :
  CStr.tolower c = "s"%char <-> c = "S"%char \/ c = "s"%char.
Proof.
  destruct c as [[] [] [] [] [] [] [] []]; vm_compute; split; intros H;
    first [ discriminate H | now auto
          | destruct H as [H | H]; discriminate H ].
Qed.

(** Lowercasing the first letter gives a token exactly on the six
    spellings of the three status words that differ in that letter. *)
Lemma lower_first_token (raw : string) :
  In (CStr.lower_first raw) status_tokens <-> In raw status_texts.
Proof.
  unfold status_tokens, status_texts.
  destruct raw as [| c rest]; simpl.
  - split; intros H; decompose [or] H; try discriminate; contradiction.
  - split; intros H.
    + destruct H as [H | [H | [H | []]]]; inversion H as [[Hc Hrest]];
        symmetry in Hc;
        [ apply tolower_p in Hc | apply tolower_p in Hc
        | apply tolower_s in Hc ];
        destruct Hc; subst c; auto 8.
    + destruct H as [H | [H | [H | [H | [H | [H | []]]]]]];
        inversion H; subst; vm_compute; auto.
Qed.

Section FetchClaims.

Context {host : Host}.

(** The name resolution returns a name or throws the listing error. *)
Lemma resolve_name_cases (bus : Bus) (m m' : Mpris) :
  (exists player_name, fst (resolve_name bus m m') = Ret player_name)
  \/ (exists message,
        player_ m = "playerctld"
        /\ snd (list_players bus) = Some message
        /\ fst (resolve_name bus m m')
           = Throw ("unable to list players: " ++ message)).
Proof.
  unfold resolve_name.
  destruct (player_ m =? "playerctld")%string eqn:Halias.
  - apply String.eqb_eq in Halias.
    destruct (list_players bus) as [players [message |]]; simpl.
    + right. exists message. auto.
    + left. destruct players; eexists; reflexivity.
  - left. eexists. reflexivity.
Qed.

(** C1 (counterexample).  On the alias target, a failing directory
    listing ends the fetch by an exception: neither a snapshot nor "no
    data". *)
Lemma getPlayerInfo_listing_failure_is_a_third_outcome :
  ~ snapshot_or_no_data
      (fst (@getPlayerInfo Reference.host
              Sample.listing_fails Sample.connected)).
Proof.
  vm_compute. intros [H | [info H]]; discriminate H.
Qed.

(** C1 (amended).  Whenever the status query answers a string, the fetch
    ends in "no data", in the fully populated snapshot of a fetch in which
    no per-field query reported an error, or, on the alias target, in the
    exception of a failed directory listing.  Whenever a per-field query
    (artist, album, title or length) reports an error and the listing did
    not fail, the fetch yields "no data". *)
Theorem getPlayerInfo_all_or_nothing (bus : Bus) (m : Mpris) :
  (forall p, player m = Some p -> prop_status bus p <> None) ->
  all_or_nothing bus m (fst (getPlayerInfo bus m))
  /\ (forall p, player m = Some p ->
        fetches_clean bus p = false ->
        (player_ m = "playerctld" -> snd (list_players bus) = None) ->
        fst (getPlayerInfo bus m) = Ret None).
Proof.
  intros Hstatus. rewrite getPlayerInfo_result. unfold fetch_result, all_or_nothing.
  destruct (player m) as [p |] eqn:Hp; [| split; [now left | discriminate]].
  specialize (Hstatus p eq_refl).
  destruct (resolve_name_cases bus m m) as [[n Hn] | [msg (Halias & Hlist & Hn)]];
    rewrite Hn.
  - destruct (ignored m n); [split; [now left | reflexivity] |].
    destruct (prop_status bus p) as [raw |] eqn:Hraw; [| contradiction].
    destruct (fetches_clean bus p) eqn:Hclean.
    + split; [| intros q Hq; inversion Hq; subst q; congruence].
      right. left. exists p, n, raw. auto.
    + split; [now left | reflexivity].
  - split.
    + right. right. exists msg. auto.
    + intros q _ _ Hok. rewrite (Hok Halias) in Hlist. discriminate.
Qed.

(** Whatever text the status query answers, the status string of a
    returned snapshot is that text with its first character lowercased;
    it is one of "playing", "paused", "stopped" exactly when the text is
    Playing, Paused or Stopped, with the first letter in either case. *)
Lemma status_string_lowercases_first_letter (bus : Bus) (m : Mpris)
  (info : PlayerInfo) :
  fst (getPlayerInfo bus m) = Ret (Some info) ->
  exists p raw,
    player m = Some p /\ prop_status bus p = Some raw
    /\ status_string info = CStr.lower_first raw
    /\ (In (status_string info) status_tokens <-> In raw status_texts).
Proof.
  rewrite getPlayerInfo_result. unfold fetch_result. intros Hrun.
  destruct (player m) as [p |]; [| discriminate].
  destruct (fst (resolve_name bus m m)) as [n | |]; try discriminate.
  destruct (ignored m n); [discriminate |].
  destruct (prop_status bus p) as [raw |] eqn:Hraw; [| discriminate].
  destruct (fetches_clean bus p); [| discriminate].
  inversion Hrun; subst info. exists p, raw. simpl.
  split; [reflexivity |]. split; [exact Hraw |]. split; [reflexivity |].
  apply lower_first_token.
Qed.

(** C8.  For a player whose status text is the text of its playback
    status, every snapshot returned by the fetch has as status string
    the lowercase token of its status: exactly one of "playing",
    "paused" and "stopped". *)
Theorem status_string_is_a_token (bus : Bus) (m : Mpris)
  (info : PlayerInfo) :
  status_text_of_playback_status bus m ->
  fst (getPlayerInfo bus m) = Ret (Some info) ->
  In (status_string info) status_tokens
  /\ status_string info
     = match status info with
       | PLAYERCTL_PLAYBACK_STATUS_PLAYING => "playing"
       | PLAYERCTL_PLAYBACK_STATUS_PAUSED => "paused"
       | PLAYERCTL_PLAYBACK_STATUS_STOPPED => "stopped"
       end.
Proof.
  intros Htext. rewrite getPlayerInfo_result. unfold fetch_result.
  intros Hrun.
  destruct (player m) as [p |] eqn:Hp; [| discriminate].
  rewrite (Htext p Hp) in Hrun.
  destruct (fst (resolve_name bus m m)) as [n | |]; try discriminate.
  destruct (ignored m n); [discriminate |].
  destruct (fetches_clean bus p); [| discriminate].
  inversion Hrun; subst info. unfold status_tokens. simpl.
  destruct (prop_playback_status bus p); simpl; auto.
Qed.

(** C10 (counterexample).  An empty status text breaks the precondition
    and the fetch still returns a snapshot. *)
Lemma empty_status_is_fetched :
  let bus := Sample.with_status (Some "")
               PLAYERCTL_PLAYBACK_STATUS_PLAYING Sample.bus in
  snapshot_or_no_data (fst (@getPlayerInfo Reference.host bus Sample.connected))
  /\ ~ status_non_empty bus Sample.connected.
Proof.
  split.
  - right. eexists. vm_compute. reflexivity.
  - intros H. destruct (H _ eq_refl) as [raw [Hraw Hne]].
    inversion Hraw. subst raw. now apply Hne.
Qed.

(** C10 (amended).  The fetch lowercases the first character of the
    status text without a null check: it is undefined exactly when it
    reaches that statement (connected, listing not failed, player not
    ignored) with a null status text.  With any string, the empty one
    included, it is defined, and a returned snapshot carries the text
    with its first character lowercased. *)
Theorem getPlayerInfo_undefined_iff_null_status (bus : Bus) (m : Mpris) :
  (fst (getPlayerInfo bus m) = Undefined
   <-> exists p, reaches_lowercasing bus m p /\ prop_status bus p = None)
  /\ (forall p raw info,
        player m = Some p -> prop_status bus p = Some raw ->
        fst (getPlayerInfo bus m) <> Undefined
        /\ (fst (getPlayerInfo bus m) = Ret (Some info) ->
            status_string info = CStr.lower_first raw)).
Proof.
  rewrite getPlayerInfo_result. unfold fetch_result, reaches_lowercasing.
  destruct (player m) as [p |] eqn:Hp.
  2: { split; [| discriminate].
       split; [discriminate | intros [q [[Hq _] _]]; discriminate]. }
  destruct (resolve_name_cases bus m m) as [[n Hn] | [msg (_ & _ & Hn)]];
    rewrite Hn.
  - destruct (ignored m n) eqn:Hign.
    + split.
      * split; [discriminate |].
        intros [q [[_ [n' [Hn' Hign']]] _]]. congruence.
      * intros q raw info _ _. split; discriminate.
    + destruct (prop_status bus p) as [raw |] eqn:Hraw.
      * split.
        -- split; [destruct (fetches_clean bus p); discriminate |].
           intros [q [[Hq _] Hnull]]. inversion Hq; subst q. congruence.
        -- intros q raw' info Hq Hraw'. inversion Hq; subst q.
           rewrite Hraw in Hraw'. inversion Hraw'; subst raw'.
           destruct (fetches_clean bus p); split; try discriminate.
           intros Hinfo. inversion Hinfo. reflexivity.
      * split.
        -- split; [| reflexivity]. intros _. exists p. eauto.
        -- intros q raw info Hq Hraw'. inversion Hq; subst q. congruence.
  - split.
    + split; [discriminate |].
      intros [q [[_ [n' [Hn' _]]] _]]. discriminate.
    + intros q raw info _ _. split; discriminate.
Qed.

End FetchClaims.

(** ** The update pass *)

Lemma set_player_same (m : Mpris) : set_player (player m) m = m.
Proof. destruct m; reflexivity. Qed.

(** Connecting assigns [player] and nothing else. *)
Lemma ensure_player_frame (bus : Bus) (m m0 : Mpris) (r : outcome unit) :
  ensure_player bus m = (r, m0) -> exists handle, m0 = set_player handle m.
Proof.
  unfold ensure_player, bind, get, modify, ret, throw.
  destruct (player m) as [p |] eqn:Hp.
  - intros Hrun. inversion Hrun. subst m0. exists (player m).
    symmetry. apply set_player_same.
  - destruct (new_from_name bus (player_ m)) as [handle [message |]];
      intros Hrun; inversion Hrun; now exists handle.
Qed.

Lemma ensure_player_ignores_templates (bus : Bus) (m : Mpris) (v : string) :
  ensure_player bus (set_format_stopped_ v m)
  = (fst (ensure_player bus m),
     set_format_stopped_ v (snd (ensure_player bus m))).
Proof.
  unfold ensure_player, bind, get, modify, ret, throw. simpl.
  destruct (player m); [reflexivity |].
  destruct (new_from_name bus (player_ m)) as [handle [message |]];
    reflexivity.
Qed.

Section UpdateClaims.

Context {host : Host}.

(** A snapshot comes from a connected player. *)
Lemma snapshot_needs_player (bus : Bus) (m m1 : Mpris) (info : PlayerInfo) :
  getPlayerInfo bus m = (Ret (Some info), m1) ->
  exists p, player m = Some p.
Proof.
  intros Hrun. pose proof (getPlayerInfo_result bus m) as Hres.
  rewrite Hrun in Hres. unfold fetch_result in Hres. simpl in Hres.
  destruct (player m) as [p |]; [now exists p | discriminate].
Qed.

(** Any pass on a playing or paused snapshot that lacks one of artist,
    title, album and length is undefined, whatever the template. *)
Lemma update_needs_every_field (bus : Bus) (m m0 m1 : Mpris)
  (info : PlayerInfo) :
  ensure_player bus m = (Ret tt, m0) ->
  getPlayerInfo bus m0 = (Ret (Some info), m1) ->
  is_stopped (status info) = false ->
  lacks_a_field info = true ->
  fst (update bus m) = Undefined.
Proof.
  intros Hconn Hfetch Hplay Hlack.
  unfold update, bind at 1. rewrite Hconn.
  unfold bind at 1. rewrite Hfetch. rewrite Hplay.
  destruct info as [n s ss [a |] [al |] [t |] [l |]];
    try discriminate Hlack; reflexivity.
Qed.

(** C4.  With the template "{player}", which references no optional
    field, and a playing player that has an album, a title and a length
    but answers an empty artist, the pass dereferences the absent artist
    for the argument list of the formatter: the update is undefined
    instead of rendering the name of the player. *)
Theorem update_dereferences_unreferenced_artist :
  fst (update (Sample.with_artist (Sample.reply "") Sample.bus)
         (Sample.with_format "{player}" Sample.connected))
  = Undefined.
Proof.
  eapply update_needs_every_field.
  - reflexivity.
  - cbv. reflexivity.
  - reflexivity.
  - reflexivity.
Qed.

(** The same pass on a player that answers all four fields renders. *)
Example update_with_every_field :
  let m := snd (@update Reference.host Sample.bus
                  (Sample.with_format "{player}" Sample.connected)) in
  label_ m = "spotify" /\ event_box_ m = true.
Proof. vm_compute. split; reflexivity. Qed.

(** What each bus error does to a pass: the exception leaves [update]
    with the object as it was, but for the handle just assigned. *)
Lemma update_bus_error (bus : Bus) (m m' : Mpris) (what : string) :
  BusError bus m what m' ->
  update bus m = (Throw what, m')
  /\ trace m' = trace m /\ label_ m' = label_ m /\ box_ m' = box_ m
  /\ event_box_ m' = event_box_ m.
Proof.
  intros Herr. inversion Herr as [handle message Hnone Hnew | m0 p players message Hconn Hp Halias Hlist]; subst.
  - split; [| now repeat split].
    unfold update, ensure_player, bind, get, modify, throw.
    rewrite Hnone, Hnew. reflexivity.
  - destruct (ensure_player_frame bus m m' (Ret tt) Hconn) as [handle Hm'].
    split; [| subst m'; now repeat split].
    unfold update, bind at 1. rewrite Hconn.
    unfold getPlayerInfo, bind, get. rewrite Hp.
    unfold resolve_name.
    replace (player_ m') with "playerctld" by (subst m'; now rewrite <- Halias).
    rewrite Hlist. reflexivity.
Qed.

(** C5.  When opening the connection fails, or when listing the players
    fails, the refresh pass returns normally, having logged the error
    and done nothing else: label, style classes and visibility are those
    from before the pass. *)
Theorem refresh_pass_survives_bus_errors (bus : Bus) (m m' : Mpris)
  (what : string) :
  BusError bus m what m' ->
  refresh_pass bus m
  = (Ret tt, set_trace (trace m ++ [Log error what]) m')
  /\ label_ m' = label_ m /\ box_ m' = box_ m
  /\ event_box_ m' = event_box_ m.
Proof.
  intros Herr.
  destruct (update_bus_error bus m m' what Herr)
    as (Hupd & Htrace & Hlabel & Hbox & Hvis).
  split; [| auto].
  unfold refresh_pass. rewrite Hupd.
  unfold log, emit, modify. now rewrite Htrace.
Qed.

(** C9.  When the snapshot of a pass has status Stopped, the pass hides
    the output, tells the parent and returns: label, style classes and
    the remembered status and player are those from before the pass, and
    neither the formatter nor the format-stopped template has any
    influence on the result. *)
Theorem update_stopped (bus : Bus) (m m0 m1 : Mpris) (info : PlayerInfo) :
  ensure_player bus m = (Ret tt, m0) ->
  getPlayerInfo bus m0 = (Ret (Some info), m1) ->
  status info = PLAYERCTL_PLAYBACK_STATUS_STOPPED ->
  let m2 :=
    set_trace
      (trace m1 ++ [Log debug ("mpris[" ++ name info ++ "]: player stopped");
                    ParentUpdate])
      (set_event_box_ false m1) in
  update bus m = (Ret tt, m2)
  /\ event_box_ m2 = false
  /\ label_ m2 = label_ m /\ box_ m2 = box_ m
  /\ lastStatus m2 = lastStatus m /\ lastPlayer m2 = lastPlayer m
  /\ forall f v,
       @update (with_formatter host f) bus (set_format_stopped_ v m)
       = (Ret tt, set_format_stopped_ v m2).
Proof.
  intros Hconn Hfetch Hstop m2.
  destruct (ensure_player_frame bus m m0 _ Hconn) as [handle Hm0].
  destruct (getPlayerInfo_frame bus m0 m1 _ Hfetch) as [evs Hm1].
  split.
  { unfold update, bind at 1. rewrite Hconn.
    unfold bind at 1. rewrite Hfetch, Hstop. simpl.
    unfold log, emit, modify, bind. simpl. subst m2.
    now rewrite <- app_assoc. }
  split; [reflexivity |].
  split; [subst m2 m1 m0; reflexivity |].
  split; [subst m2 m1 m0; reflexivity |].
  split; [subst m2 m1 m0; reflexivity |].
  split; [subst m2 m1 m0; reflexivity |].
  intros f v.
  unfold update, bind at 1.
  rewrite ensure_player_ignores_templates, Hconn. simpl.
  unfold bind at 1.
  rewrite getPlayerInfo_ignores_templates, Hfetch. simpl.
  rewrite Hstop. simpl.
  unfold log, emit, modify, bind. simpl. subst m2.
  now rewrite <- app_assoc.
Qed.

End UpdateClaims.

(** ** Clicks *)

Section ClickClaims.

Context {host : Host}.

(** C7.  On a click of button 1, 2 or 3 with a snapshot present: when the
    configuration holds a string under the key of that button, the click
    is handed to the parent, whose answer is returned, and no built-in
    command is issued; otherwise the built-in command of the button is
    issued (1 play/pause, 2 previous, 3 next), and the click is reported
    handled unless the command set an error, which is logged. *)
Theorem handleToggle_click (bus : Bus) (m m1 : Mpris) (info : PlayerInfo)
  (b : N) (key : string) (c : Transport) :
  getPlayerInfo bus m = (Ret (Some info), m1) ->
  binding b = Some (key, c) ->
  exists p, player m1 = Some p
  /\ (JsonValue.isString (JsonValue.member (config_ m) key) = true ->
      handleToggle bus (click b) m
      = (Ret (AModule_handleToggle (click b)),
         set_trace (trace m1 ++ [ParentToggle (click b)]) m1))
  /\ (JsonValue.isString (JsonValue.member (config_ m) key) = false ->
      handleToggle bus (click b) m
      = match command_error bus p c with
        | None => (Ret true, set_trace (trace m1 ++ [Issue c]) m1)
        | Some message =>
            (Ret false,
             set_trace
               (trace m1
                ++ [Issue c;
                    Log error
                      ("mpris[" ++ name info
                       ++ "]: error running builtin on-click action: "
                       ++ message)]) m1)
        end).
Proof.
  intros Hfetch Hbind.
  destruct (snapshot_needs_player bus m m1 info Hfetch) as [p Hp].
  destruct (getPlayerInfo_frame bus m m1 _ Hfetch) as [evs Hm1].
  assert (Hp1 : player m1 = Some p) by (subst m1; exact Hp).
  assert (Hcfg : config_ m1 = config_ m) by (subst m1; reflexivity).
  exists p. split; [exact Hp1 |].
  assert (Hcase :
    handleToggle bus (click b) m = button_case bus (click b) info key c m1).
  { unfold handleToggle, bind at 1. rewrite Hfetch. simpl.
    destruct b as [| [[| |] | [| |] |]]; simpl in Hbind;
      try discriminate Hbind; inversion Hbind; reflexivity. }
  rewrite Hcase.
  unfold button_case, builtin, after_builtin, log, emit, modify, ret, bind,
    get.
  simpl. rewrite Hcfg.
  split; intros Hkey; rewrite Hkey; simpl.
  - reflexivity.
  - rewrite Hp1. destruct (command_error bus p c) as [message |]; simpl.
    + now rewrite <- app_assoc.
    + reflexivity.
Qed.

(** An event of another type issues nothing and is reported handled. *)
Lemma handleToggle_other_event (bus : Bus) (m m1 : Mpris)
  (info : PlayerInfo) (e : GdkEventButton) :
  getPlayerInfo bus m = (Ret (Some info), m1) ->
  type e <> GDK_BUTTON_PRESS ->
  handleToggle bus e m = (Ret true, m1).
Proof.
  intros Hfetch Htype. unfold handleToggle, bind at 1. rewrite Hfetch.
  destruct (type e); [contradiction | reflexivity ..].
Qed.

(** Without a snapshot the click is not handled. *)
Lemma handleToggle_without_snapshot (bus : Bus) (m m1 : Mpris)
  (e : GdkEventButton) :
  getPlayerInfo bus m = (Ret None, m1) ->
  handleToggle bus e m = (Ret false, m1).
Proof.
  intros Hfetch. unfold handleToggle, bind at 1. now rewrite Hfetch.
Qed.

End ClickClaims.

(** ** The theorems at the sample inputs *)

Lemma getPlayerInfo_all_or_nothing_witness :
  fst (@getPlayerInfo Reference.host Sample.artist_fails Sample.connected)
  = Ret None.
Proof.
  refine (proj2 (@getPlayerInfo_all_or_nothing Reference.host
                   Sample.artist_fails Sample.connected _)
            (Handle "playerctld") eq_refl eq_refl _).
  - intros p _. discriminate.
  - reflexivity.
Defined.

Lemma status_string_is_a_token_witness :
  In (status_string Sample.info_ABC) status_tokens
  /\ status_string Sample.info_ABC = "playing".
Proof.
  apply (@status_string_is_a_token Reference.host Sample.bus
           Sample.connected Sample.info_ABC).
  - intros p _. reflexivity.
  - vm_compute. reflexivity.
Defined.

Lemma refresh_pass_survives_bus_errors_witness :
  @refresh_pass Reference.host Sample.listing_fails Sample.connected
  = (Ret tt,
     set_trace [Log error "unable to list players: bus down"]
       Sample.connected)
  /\ label_ Sample.connected = label_ Sample.connected
  /\ box_ Sample.connected = box_ Sample.connected
  /\ event_box_ Sample.connected = event_box_ Sample.connected.
Proof.
  apply (@refresh_pass_survives_bus_errors Reference.host
           Sample.listing_fails Sample.connected Sample.connected
           "unable to list players: bus down").
  apply (DirectoryError Sample.listing_fails Sample.connected
           Sample.connected (Handle "playerctld") [] "bus down");
    reflexivity.
Defined.

Lemma handleToggle_click_witness :
  @handleToggle Reference.host Sample.bus (click 2) Sample.middle_overridden
  = (Ret true,
     set_trace
       (trace (snd (@getPlayerInfo Reference.host Sample.bus
                      Sample.middle_overridden))
        ++ [ParentToggle (click 2)])
       (snd (@getPlayerInfo Reference.host Sample.bus
               Sample.middle_overridden))).
Proof.
  destruct (@handleToggle_click Reference.host Sample.bus
              Sample.middle_overridden
              (snd (@getPlayerInfo Reference.host Sample.bus
                      Sample.middle_overridden))
              Sample.info_ABC 2 "on-middle-click" Previous
              eq_refl eq_refl) as [p [_ [Hoverride _]]].
  exact (Hoverride eq_refl).
Defined.

Lemma update_stopped_witness :
  @update Reference.host Sample.stopped_bus Sample.fresh
  = (Ret tt,
     set_trace
       (trace (snd (@getPlayerInfo Reference.host Sample.stopped_bus
                      Sample.connected))
        ++ [Log debug "mpris[spotify]: player stopped"; ParentUpdate])
       (set_event_box_ false
          (snd (@getPlayerInfo Reference.host Sample.stopped_bus
                  Sample.connected)))).
Proof.
  exact (proj1 (@update_stopped Reference.host Sample.stopped_bus
                  Sample.fresh Sample.connected
                  (snd (@getPlayerInfo Reference.host Sample.stopped_bus
                          Sample.connected))
                  Sample.info_stopped eq_refl eq_refl eq_refl)).
Defined.

Lemma getPlayerInfo_undefined_iff_null_status_witness :
  fst (@getPlayerInfo Reference.host Sample.null_status Sample.connected)
  = Undefined.
Proof.
  apply (proj2 (proj1 (@getPlayerInfo_undefined_iff_null_status
                         Reference.host Sample.null_status
                         Sample.connected))).
  exists (Handle "playerctld"). split; [| reflexivity].
  split; [reflexivity |]. exists "spotify". split; reflexivity.
Defined.

(** ** What the member functions leave untouched *)

Section Preservation.

Variable R : Mpris -> Mpris -> Prop.
Hypothesis R_refl : forall m, R m m.
Hypothesis R_trans : forall m1 m2 m3, R m1 m2 -> R m2 m3 -> R m1 m3.

Lemma preserves_ret {A : Type} (a : A) : preserves R (ret a).
Proof. intros m. apply R_refl. Qed.

Lemma preserves_lift {A : Type} (o : outcome A) : preserves R (lift o).
Proof. intros m. apply R_refl. Qed.

Lemma preserves_throw {A : Type} (what : string) :
  preserves R (@throw A what).
Proof. intros m. apply R_refl. Qed.

Lemma preserves_undefined {A : Type} : preserves R (@undefined A).
Proof. intros m. apply R_refl. Qed.

Lemma preserves_get : preserves R get.
Proof. intros m. apply R_refl. Qed.

Lemma preserves_deref {A : Type} (o : option A) : preserves R (deref o).
Proof. destruct o; [apply preserves_ret | apply preserves_undefined]. Qed.

Lemma preserves_bind {A B : Type} (c : M A) (k : A -> M B) :
  preserves R c -> (forall a, preserves R (k a)) -> preserves R (bind c k).
Proof.
  intros Hc Hk m. unfold bind. specialize (Hc m).
  destruct (c m) as [[a | what |] m']; simpl in *; auto.
  apply R_trans with m'; [exact Hc | apply Hk].
Qed.

End Preservation.

(** Decompose a computation along its binds and case analyses; [leaf]
    closes the steps that write to the object. *)
Ltac preserves_tac refl trans leaf :=
  repeat first
    [ apply (preserves_ret _ refl)
    | apply (preserves_lift _ refl)
    | apply (preserves_throw _ refl)
    | apply (preserves_undefined _ refl)
    | apply (preserves_get _ refl)
    | apply (preserves_deref _ refl)
    | solve [leaf]
    | apply (preserves_bind _ trans); [ | intros ]
    | match goal with
      | |- preserves _ (match ?x with _ => _ end) => destruct x
      | |- preserves _ (if ?x then _ else _) => destruct x
      | |- preserves _ (let '(_, _) := ?x in _) => destruct x
      end ].

Lemma only_appends_refl (allowed : Event -> bool) (m : Mpris) :
  only_appends allowed m m.
Proof.
  exists []. split; [| reflexivity].
  now rewrite app_nil_r, set_trace_same.
Qed.

Lemma only_appends_trans (allowed : Event -> bool) (m1 m2 m3 : Mpris) :
  only_appends allowed m1 m2 -> only_appends allowed m2 m3 ->
  only_appends allowed m1 m3.
Proof.
  intros [evs [H12 Hevs]] [evs' [H23 Hevs']]. subst m2 m3.
  exists (evs ++ evs')%list. split.
  - simpl. now rewrite app_assoc.
  - rewrite forallb_app, Hevs, Hevs'. reflexivity.
Qed.

Lemma only_appends_emit (allowed : Event -> bool) (e : Event) :
  allowed e = true -> preserves (only_appends allowed) (emit e).
Proof.
  intros He m. exists [e]. split; [reflexivity |]. simpl. now rewrite He.
Qed.

Lemma same_settings_refl (m : Mpris) : same_settings m m.
Proof. repeat split. Qed.

Lemma same_settings_trans (m1 m2 m3 : Mpris) :
  same_settings m1 m2 -> same_settings m2 m3 -> same_settings m1 m3.
Proof.
  unfold same_settings. intros H12 H23.
  decompose [and] H12. decompose [and] H23. repeat split; congruence.
Qed.

Section Untouched.

Context {host : Host}.

Lemma getPlayerInfo_appends_logs (bus : Bus) :
  preserves (only_appends is_log) (getPlayerInfo bus).
Proof.
  unfold getPlayerInfo, resolve_name, or_errorexit, errorexit, fetch_text,
    fetch_length, log.
  preserves_tac (only_appends_refl is_log) (only_appends_trans is_log)
    ltac:(apply only_appends_emit; reflexivity).
Qed.

(** X1.  The snapshot fetch changes no member of the object: whatever
    its outcome (a snapshot, "no data", an exception, undefined), the
    object afterwards is the one from before with log lines appended to
    the trace; it requests no refresh and issues no command. *)
Theorem getPlayerInfo_only_logs (bus : Bus) (m : Mpris) :
  exists evs,
    snd (getPlayerInfo bus m) = set_trace (trace m ++ evs) m
    /\ forallb is_log evs = true.
Proof. exact (getPlayerInfo_appends_logs bus m). Qed.

(** X2.  The click handler changes no member of the object either, and
    what it appends to the trace are log lines and at most one action: a
    transport command or the hand-over to the parent's handler. *)
Theorem handleToggle_at_most_one_action (bus : Bus) (e : GdkEventButton)
  (m : Mpris) :
  exists evs,
    snd (handleToggle bus e m) = set_trace (trace m ++ evs) m
    /\ forallb (fun ev => is_log ev || is_action ev) evs = true
    /\ (List.length (filter is_action evs) <= 1)%nat.
Proof.
  pose proof (getPlayerInfo_appends_logs bus m) as Hlog.
  unfold handleToggle, bind at 1.
  destruct (getPlayerInfo bus m) as [o m1]. simpl in Hlog.
  destruct Hlog as [evs [Hm1 Hlogs]].
  assert (Hnone : filter is_action evs = []).
  { clear Hm1. induction evs as [| ev evs IH]; [reflexivity |].
    simpl in Hlogs. apply andb_prop in Hlogs. destruct Hlogs as [Hev Hrest].
    destruct ev; try discriminate Hev; simpl; auto. }
  assert (Hboth : forallb (fun ev => is_log ev || is_action ev) evs = true).
  { clear Hm1 Hnone. induction evs as [| ev evs IH]; [reflexivity |].
    simpl in *. apply andb_prop in Hlogs. destruct Hlogs as [Hev Hrest].
    now rewrite Hev, IH. }
  set (Q := fun m' : Mpris =>
    exists evs',
      m' = set_trace (trace m ++ evs') m
      /\ forallb (fun ev => is_log ev || is_action ev) evs' = true
      /\ (List.length (filter is_action evs') <= 1)%nat).
  assert (HQ : forall extra,
    forallb (fun ev => is_log ev || is_action ev) extra = true ->
    (List.length (filter is_action extra) <= 1)%nat ->
    Q (set_trace (trace m1 ++ extra) m1)).
  { intros extra Hextra Hcount. exists (evs ++ extra)%list.
    rewrite Hm1. simpl. rewrite app_assoc. split; [reflexivity |].
    rewrite forallb_app, Hboth, Hextra. split; [reflexivity |].
    now rewrite filter_app, Hnone. }
  assert (HQ0 : Q m1).
  { specialize (HQ [] eq_refl (le_S _ _ (le_n 0))).
    now rewrite app_nil_r, set_trace_same in HQ. }
  match goal with |- exists evs', snd ?x = _ /\ _ => change (Q (snd x)) end.
  destruct o as [[info |] | what |]; simpl; try exact HQ0.
  unfold button_case, builtin, after_builtin, log, emit, modify, ret, bind,
    get.
  destruct (type e); simpl; try exact HQ0.
  destruct (button e) as [| [[| |] | [| |] |]]; simpl; try exact HQ0.
  all: match goal with
       | |- context [if ?x then _ else _] => destruct x
       end; simpl; try (apply HQ; simpl; auto).
  all: match goal with
       | |- context [match ?x with Some _ => _ | None => _ end] =>
           destruct x
       end; simpl; rewrite <- ?app_assoc; simpl;
       apply HQ; simpl; auto.
Qed.

End Untouched.

Lemma same_settings_modify (f : Mpris -> Mpris) :
  (forall m, same_settings m (f m)) -> preserves same_settings (modify f).
Proof. intros Hf m. apply Hf. Qed.

Lemma same_handle_modify (f : Mpris -> Mpris) :
  (forall m, same_handle m (f m)) -> preserves same_handle (modify f).
Proof. intros Hf m. apply Hf. Qed.

Lemma same_handle_trans (m1 m2 m3 : Mpris) :
  same_handle m1 m2 -> same_handle m2 m3 -> same_handle m1 m3.
Proof. unfold same_handle. congruence. Qed.

Section Passes.

Context {host : Host}.

(** X3.  A pass never writes to the members read from the
    configuration: the configuration object, the four templates, the
    player name and the list of ignored players are the same after
    [update], whether it returns, throws or is undefined. *)
Theorem update_keeps_settings (bus : Bus) :
  preserves same_settings (update bus).
Proof.
  unfold update, ensure_player, dynamic_of, getPlayerInfo, resolve_name,
    or_errorexit, errorexit, fetch_text, fetch_length, log, emit.
  preserves_tac same_settings_refl same_settings_trans
    ltac:(apply same_settings_modify; intros ?; repeat split).
Qed.

(** After the connection step, a pass leaves the handle alone. *)
Lemma update_handle_after_connect (bus : Bus) (m : Mpris) :
  player (snd (update bus m)) = player (snd (ensure_player bus m)).
Proof.
  unfold update. unfold bind at 1.
  destruct (ensure_player bus m) as [[[] | what |] m0]; simpl;
    try reflexivity.
  match goal with
  | |- player (snd (?c m0)) = _ =>
      assert (Hrest : preserves same_handle c)
  end.
  { unfold dynamic_of, getPlayerInfo, resolve_name, or_errorexit, errorexit,
      fetch_text, fetch_length, log, emit.
    preserves_tac (fun m => eq_refl (player m)) same_handle_trans
      ltac:(apply same_handle_modify; intros ?; reflexivity). }
  apply Hrest.
Qed.

(** The fetch never looks at what a connection attempt would answer. *)
Lemma getPlayerInfo_ignores_connect (bus : Bus) (m : Mpris)
  (r : option PlayerctlPlayer * option string) :
  getPlayerInfo (Sample.with_connect r bus) m = getPlayerInfo bus m.
Proof. reflexivity. Qed.

(** X4.  A connected module does not reconnect: with a handle in place,
    a pass keeps that handle and does the same whatever a connection
    attempt would have answered. *)
Theorem update_keeps_live_handle (bus : Bus) (m : Mpris)
  (p : PlayerctlPlayer) (r : option PlayerctlPlayer * option string) :
  player m = Some p ->
  player (snd (update bus m)) = Some p
  /\ update (Sample.with_connect r bus) m = update bus m.
Proof.
  intros Hp. split.
  - rewrite update_handle_after_connect.
    unfold ensure_player, bind, get, ret. now rewrite Hp.
  - assert (He : forall b, ensure_player b m = (Ret tt, m)).
    { intros b. unfold ensure_player, bind, get, ret. now rewrite Hp. }
    unfold update, bind.
    rewrite (He bus), (He (Sample.with_connect r bus)). reflexivity.
Qed.

(** X5.  After a name-appeared or name-vanished signal the next pass
    reconnects: whatever handle the object held before the signal, after
    the pass it holds the one which the connection attempt for the
    configured player name returned, also when that attempt set an
    error. *)
Theorem update_reconnects_after_name_signal (bus : Bus)
  (player_name : PlayerctlPlayerName) (m m' : Mpris) :
  onPlayerNameAppeared player_name (Some m) = Some m'
  \/ onPlayerNameVanished player_name (Some m) = Some m' ->
  player (snd (update bus m')) = fst (new_from_name bus (player_ m)).
Proof.
  intros Hsignal.
  assert (Hm' : player m' = None /\ player_ m' = player_ m).
  { destruct Hsignal as [H | H]; inversion H; split; reflexivity. }
  destruct Hm' as [Hnone Hname].
  rewrite update_handle_after_connect.
  unfold ensure_player, bind, get, modify, ret, throw.
  rewrite Hnone, Hname.
  destruct (new_from_name bus (player_ m)) as [handle [message |]];
    reflexivity.
Qed.

End Passes.

(** ** More on the snapshot fetch *)

(** The name resolution does not touch the object. *)
Lemma resolve_name_state (bus : Bus) (m m' : Mpris) :
  snd (resolve_name bus m m') = m'.
Proof.
  unfold resolve_name.
  destruct (player_ m =? "playerctld")%string; [| reflexivity].
  destruct (list_players bus) as [[| first rest] [message |]]; reflexivity.
Qed.

Section FetchMore.

Context {host : Host}.

(** X6.  A player whose resolved name is on the list of ignored players
    never gives a snapshot: the fetch returns "no data" with one warning,
    whatever the status and the fields of the player are, a null status
    text included. *)
Theorem ignored_player_gives_no_data (bus : Bus) (m : Mpris)
  (p : PlayerctlPlayer) (player_name : string) :
  player m = Some p ->
  fst (resolve_name bus m m) = Ret player_name ->
  ignored m player_name = true ->
  getPlayerInfo bus m
  = (Ret None,
     set_trace
       (trace m
        ++ [Log warn ("mpris[" ++ player_name ++ "]: ignoring player update")])
       m).
Proof.
  intros Hp Hname Hign. unfold ignored in Hign.
  pose proof (resolve_name_state bus m m) as Hstate.
  unfold getPlayerInfo, bind, get. rewrite Hp.
  destruct (resolve_name bus m m) as [o m']. simpl in Hname, Hstate.
  subst o m'. rewrite Hign. reflexivity.
Qed.

(** X7.  The name of a returned snapshot: for a module bound to a
    concrete player, the configured name; for the alias "playerctld", the
    name of the first listed player, and the alias itself when no player
    is listed. *)
Theorem snapshot_name (bus : Bus) (m : Mpris) (info : PlayerInfo) :
  fst (getPlayerInfo bus m) = Ret (Some info) ->
  name info = shown_name bus m.
Proof.
  rewrite getPlayerInfo_result. unfold fetch_result, resolve_name, shown_name.
  destruct (player m) as [p |]; [| discriminate].
  destruct (player_ m =? "playerctld")%string.
  - destruct (list_players bus) as [[| first rest] [message |]]; simpl;
      try discriminate;
      match goal with |- context [ignored m ?n] => destruct (ignored m n) end;
      try discriminate;
      destruct (prop_status bus p); try discriminate;
      destruct (fetches_clean bus p); try discriminate;
      intros H; inversion H; reflexivity.
  - simpl. destruct (ignored m (player_ m)); [discriminate |].
    destruct (prop_status bus p); [| discriminate].
    destruct (fetches_clean bus p); [| discriminate].
    intros H; inversion H; reflexivity.
Qed.

Lemma getPlayerInfo_skips_listing (bus : Bus) (m : Mpris)
  (r : list PlayerctlPlayerName * option string) :
  player_ m <> "playerctld" ->
  getPlayerInfo (Sample.with_players r bus) m = getPlayerInfo bus m.
Proof.
  intros Hname. apply String.eqb_neq in Hname.
  unfold getPlayerInfo, resolve_name, bind, get. rewrite Hname. reflexivity.
Qed.

(** X8.  A module bound to a concrete player name never consults the
    directory: the fetch and the whole pass do the same whatever the
    listing would answer, an error included. *)
Theorem concrete_player_skips_listing (bus : Bus) (m : Mpris)
  (r : list PlayerctlPlayerName * option string) :
  player_ m <> "playerctld" ->
  getPlayerInfo (Sample.with_players r bus) m = getPlayerInfo bus m
  /\ update (Sample.with_players r bus) m = update bus m.
Proof.
  intros Hname. split; [now apply getPlayerInfo_skips_listing |].
  unfold update, bind.
  change (ensure_player (Sample.with_players r bus) m)
    with (ensure_player bus m).
  destruct (ensure_player bus m) as [[[] | what |] m0] eqn:Hconn;
    try reflexivity.
  destruct (ensure_player_frame bus m m0 _ Hconn) as [handle Hm0].
  rewrite (getPlayerInfo_skips_listing bus m0 r)
    by (subst m0; exact Hname).
  reflexivity.
Qed.

(** X9.  When the fetch reaches the queries and one of them reports an
    error, the fetch returns "no data" and logs exactly one error line,
    carrying the message of the first failing query in the order artist,
    album, title, length. *)
Theorem first_error_is_the_one_logged (bus : Bus) (m : Mpris)
  (p : PlayerctlPlayer) (player_name raw e : string) :
  player m = Some p ->
  fst (resolve_name bus m m) = Ret player_name ->
  ignored m player_name = false ->
  prop_status bus p = Some raw ->
  first_error bus p = Some e ->
  exists evs,
    getPlayerInfo bus m = (Ret None, set_trace (trace m ++ evs) m)
    /\ filter is_error_log evs
       = [Log error ("mpris[" ++ player_name ++ "]: " ++ e)].
Proof.
  intros Hp Hname Hign Hraw Herr. unfold ignored in Hign.
  pose proof (resolve_name_state bus m m) as Hstate.
  unfold getPlayerInfo, bind at 1, get. rewrite Hp.
  unfold bind at 1.
  destruct (resolve_name bus m m) as [o m']. simpl in Hname, Hstate.
  subst o m'. rewrite Hign, Hraw.
  unfold first_error in Herr.
  unfold or_errorexit, errorexit, fetch_text, fetch_length, log, emit,
    modify, ret, deref, bind. simpl.
  crush_cases; try discriminate;
    rewrite <- ?app_assoc; simpl;
    eexists; (split; [reflexivity | simpl; congruence]).
Qed.

End FetchMore.

(** ** Style classes *)

Lemma has_class_add (c d : string) (classes : list string) :
  has_class c (classes ++ [d]) = has_class c classes || String.eqb c d.
Proof.
  unfold has_class. rewrite existsb_app. simpl. now rewrite orb_false_r.
Qed.

Lemma has_class_remove (c d : string) (classes : list string) :
  has_class c (remove_class d classes)
  = negb (String.eqb c d) && has_class c classes.
Proof.
  unfold has_class, remove_class.
  induction classes as [| x classes IH]; simpl.
  - now rewrite andb_false_r.
  - destruct (String.eqb d x) eqn:Hdx; simpl.
    + rewrite IH. apply String.eqb_eq in Hdx. subst x.
      destruct (String.eqb c d); reflexivity.
    + rewrite IH. destruct (String.eqb c x) eqn:Hcx; simpl.
      * apply String.eqb_eq in Hcx. subst x.
        rewrite String.eqb_sym in Hdx. now rewrite Hdx.
      * reflexivity.
Qed.

Lemma is_empty_eqb (s : string) : is_empty s = String.eqb s "".
Proof. destruct s; reflexivity. Qed.

(** Membership after [restyle], for every class. *)
Lemma has_class_restyle (c last current : string) (classes : list string) :
  has_class c (restyle last current classes)
  = String.eqb c current
    || (has_class c classes
        && negb (String.eqb c last && negb (is_empty last))).
Proof.
  unfold restyle.
  set (kept := if negb (is_empty last) && has_class last classes
               then remove_class last classes else classes).
  assert (Hkept : has_class c kept
                  = has_class c classes
                    && negb (String.eqb c last && negb (is_empty last))).
  { subst kept. destruct (is_empty last) eqn:Hempty; simpl.
    - now rewrite andb_false_r, andb_true_r.
    - rewrite andb_true_r.
      destruct (has_class last classes) eqn:Hlast.
      + rewrite has_class_remove. apply andb_comm.
      + destruct (String.eqb c last) eqn:Hcl; simpl.
        * apply String.eqb_eq in Hcl. subst c.
          now rewrite Hlast.
        * now rewrite andb_true_r. }
  destruct (has_class current kept) eqn:Hcur; simpl.
  - rewrite Hkept.
    destruct (String.eqb c current) eqn:Hcc; [| reflexivity].
    apply String.eqb_eq in Hcc. subst c. now rewrite <- Hkept.
  - unfold add_class. rewrite Hcur, has_class_add, Hkept. apply orb_comm.
Qed.

(** X10.  Switching the class: afterwards the box carries the current
    class; it has lost the previous one when that was a non-empty name
    other than the current one; every other class is there exactly when
    it was there before. *)
Theorem restyle_switches_one_class (last current : string)
  (classes : list string) :
  has_class current (restyle last current classes) = true
  /\ (last <> "" -> last <> current ->
      has_class last (restyle last current classes) = false)
  /\ (forall c, c <> last -> c <> current ->
      has_class c (restyle last current classes) = has_class c classes).
Proof.
  repeat split.
  - rewrite has_class_restyle, String.eqb_refl. reflexivity.
  - intros Hne Hdiff. rewrite has_class_restyle, String.eqb_refl.
    apply String.eqb_neq in Hdiff. rewrite Hdiff.
    rewrite is_empty_eqb. apply String.eqb_neq in Hne. rewrite Hne.
    simpl. now rewrite andb_false_r.
  - intros c Hlast Hcur. rewrite has_class_restyle.
    apply String.eqb_neq in Hlast, Hcur. rewrite Hlast, Hcur.
    simpl. now rewrite andb_true_r.
Qed.

(** X11.  The two switches of a pass share one class set: after the
    status class and then the player class were switched, the box
    carries the class of the player name, and it carries the class of
    the status except in one case: the player shown before had the very
    name of the new status string, and the new player has another. *)
Theorem status_class_survives_unless_named_so
  (lastStatus_ lastPlayer_ status_string_ name_ : string)
  (classes : list string) :
  let after :=
    restyle lastPlayer_ name_ (restyle lastStatus_ status_string_ classes) in
  has_class name_ after = true
  /\ (has_class status_string_ after = false
      <-> lastPlayer_ = status_string_ /\ status_string_ <> name_
          /\ lastPlayer_ <> "").
Proof.
  intros after. subst after. split.
  - rewrite has_class_restyle, String.eqb_refl. reflexivity.
  - rewrite has_class_restyle.
    rewrite (has_class_restyle status_string_ lastStatus_), String.eqb_refl.
    simpl. rewrite is_empty_eqb.
    destruct (String.eqb status_string_ name_) eqn:Hsn; simpl.
    + apply String.eqb_eq in Hsn. split; [discriminate |].
      intros [_ [Hne _]]. contradiction.
    + apply String.eqb_neq in Hsn.
      destruct (String.eqb status_string_ lastPlayer_) eqn:Hsl; simpl.
      * apply String.eqb_eq in Hsl.
        destruct (String.eqb lastPlayer_ "") eqn:Hle; simpl.
        -- apply String.eqb_eq in Hle. split; [discriminate |].
           intros [_ [_ Hne]]. contradiction.
        -- apply String.eqb_neq in Hle. split; auto.
      * apply String.eqb_neq in Hsl. split; [discriminate |].
        intros [Heq _]. congruence.
Qed.

(** ** Rendering *)

Lemma string_app_assoc (x y z : string) :
  ((x ++ y) ++ z)%string = (x ++ (y ++ z))%string.
Proof. induction x as [| c x IH]; simpl; [reflexivity | now rewrite IH]. Qed.

(** The dynamic text of a snapshot with every field. *)
Lemma dynamic_of_full (info : PlayerInfo) (m : Mpris)
  (a al t l : string) :
  artist info = Some a -> album info = Some al -> title info = Some t ->
  length info = Some l ->
  dynamic_of info m = (Ret (dynamic_text a al t l), m).
Proof.
  intros Ha Hal Ht Hl. unfold dynamic_of, dynamic_text.
  rewrite Ha, Hal, Ht, Hl. unfold deref, bind, ret. simpl.
  now rewrite !string_app_assoc.
Qed.

Section Rendering.

Context {host : Host}.

(** X12.  Whenever the fetch of a pass yields "no data" (no player,
    ignored player, or a failed query), the pass hides the output,
    notifies the parent and leaves label, style classes and the
    remembered status and player as they were. *)
Theorem update_without_snapshot (bus : Bus) (m m0 m1 : Mpris) :
  ensure_player bus m = (Ret tt, m0) ->
  getPlayerInfo bus m0 = (Ret None, m1) ->
  let m2 := set_trace (trace m1 ++ [ParentUpdate]) (set_event_box_ false m1) in
  update bus m = (Ret tt, m2)
  /\ event_box_ m2 = false
  /\ label_ m2 = label_ m /\ box_ m2 = box_ m
  /\ lastStatus m2 = lastStatus m /\ lastPlayer m2 = lastPlayer m.
Proof.
  intros Hconn Hfetch m2.
  destruct (ensure_player_frame bus m m0 _ Hconn) as [handle Hm0].
  destruct (getPlayerInfo_frame bus m0 m1 _ Hfetch) as [evs Hm1].
  split.
  { unfold update, bind at 1. rewrite Hconn.
    unfold bind at 1. rewrite Hfetch. reflexivity. }
  subst m2 m1 m0. repeat split.
Qed.

(** The state of a pass on a playing or paused snapshot with every
    field, at the call of the formatter. *)
Lemma update_up_to_formatter (bus : Bus) (m m0 m1 : Mpris)
  (info : PlayerInfo) (a al t l : string) :
  ensure_player bus m = (Ret tt, m0) ->
  getPlayerInfo bus m0 = (Ret (Some info), m1) ->
  is_stopped (status info) = false ->
  artist info = Some a -> album info = Some al -> title info = Some t ->
  length info = Some l ->
  let styled :=
    set_lastPlayer (name info)
      (set_box_
         (restyle (lastPlayer m) (name info)
            (restyle (lastStatus m) (status_string info) (box_ m)))
         (set_lastStatus (status_string info)
            (set_trace
               (trace m1
                ++ [Log debug ("mpris[" ++ name info ++ "]: running update")])
               m1))) in
  update bus m
  = match fmt_format (select_format m (status info))
            (label_args m info a t al l (dynamic_text a al t l)) with
    | Ret text =>
        (Ret tt,
         set_trace (trace styled ++ [ParentUpdate])
           (set_event_box_ true (set_label_ text styled)))
    | Throw what => (Throw what, styled)
    | Undefined => (Undefined, styled)
    end.
Proof.
  intros Hconn Hfetch Hplay Ha Hal Ht Hl styled.
  destruct (ensure_player_frame bus m m0 _ Hconn) as [handle Hm0].
  destruct (getPlayerInfo_frame bus m0 m1 _ Hfetch) as [evs Hm1].
  unfold update, bind at 1. rewrite Hconn.
  unfold bind at 1. rewrite Hfetch, Hplay.
  unfold bind at 1, log, emit, modify. 
  unfold bind at 1. rewrite (dynamic_of_full info _ a al t l Ha Hal Ht Hl).
  rewrite Ha, Hal, Ht, Hl.
  unfold bind, modify, get, deref, ret, lift. simpl.
  subst styled. unfold select_format, label_args. subst m1 m0. simpl.
  destruct (fmt_format _ _) as [text | what |]; reflexivity.
Qed.

(** X13.  A pass on a playing or paused snapshot with artist, album,
    title and length renders: the label is what the formatter gives for
    the template of the status (for Playing the format-playing template
    when it is not empty, for Paused the format-paused one when it is
    not empty, else the default template) and the nine named arguments,
    the output is shown, the style classes are switched, and the status
    string and the player name are remembered. *)
Theorem update_renders (bus : Bus) (m m0 m1 : Mpris)
  (info : PlayerInfo) (a al t l text : string) :
  ensure_player bus m = (Ret tt, m0) ->
  getPlayerInfo bus m0 = (Ret (Some info), m1) ->
  is_stopped (status info) = false ->
  artist info = Some a -> album info = Some al -> title info = Some t ->
  length info = Some l ->
  let template :=
    match status info with
    | PLAYERCTL_PLAYBACK_STATUS_PLAYING =>
        if is_empty (format_playing_ m) then format_ m
        else format_playing_ m
    | PLAYERCTL_PLAYBACK_STATUS_PAUSED =>
        if is_empty (format_paused_ m) then format_ m
        else format_paused_ m
    | PLAYERCTL_PLAYBACK_STATUS_STOPPED => format_ m
    end in
  fmt_format template
    [ ("player", name info); ("status", status_string info);
      ("artist", a); ("title", t); ("album", al); ("length", l);
      ("dynamic",
       a ++ " - " ++ al ++ " - " ++ t ++ " <small>[" ++ l ++ "]</small>");
      ("player_icon",
       getIcon (JsonValue.member (config_ m) "player-icons") (name info));
      ("status_icon",
       getIcon (JsonValue.member (config_ m) "status-icons")
               (status_string info)) ]
  = Ret text ->
  fst (update bus m) = Ret tt
  /\ label_ (snd (update bus m)) = text
  /\ event_box_ (snd (update bus m)) = true
  /\ box_ (snd (update bus m))
     = restyle (lastPlayer m) (name info)
         (restyle (lastStatus m) (status_string info) (box_ m))
  /\ lastStatus (snd (update bus m)) = status_string info
  /\ lastPlayer (snd (update bus m)) = name info
  /\ trace (snd (update bus m))
     = (trace m1
        ++ [Log debug ("mpris[" ++ name info ++ "]: running update");
            ParentUpdate])%list.
Proof.
  intros Hconn Hfetch Hplay Ha Hal Ht Hl template Hfmt.
  assert (Htemplate : select_format m (status info) = template).
  { subst template. unfold select_format.
    destruct (status info); [| | discriminate Hplay].
    - destruct (is_empty (format_playing_ m)); reflexivity.
    - destruct (is_empty (format_paused_ m)); reflexivity. }
  rewrite (update_up_to_formatter bus m m0 m1 info a al t l
             Hconn Hfetch Hplay Ha Hal Ht Hl).
  rewrite Htemplate. unfold label_args, dynamic_text. rewrite Hfmt.
  simpl. rewrite <- app_assoc. repeat split.
Qed.

(** X14.  When the formatter rejects the template (a malformed format
    string, an unknown placeholder), the pass ends by that exception
    half-way: the style classes are already switched and the status and
    player already remembered, while the label and the visibility are
    still those from before the pass. *)
Theorem update_format_error (bus : Bus) (m m0 m1 : Mpris)
  (info : PlayerInfo) (a al t l what : string) :
  ensure_player bus m = (Ret tt, m0) ->
  getPlayerInfo bus m0 = (Ret (Some info), m1) ->
  is_stopped (status info) = false ->
  artist info = Some a -> album info = Some al -> title info = Some t ->
  length info = Some l ->
  fmt_format (select_format m (status info))
    (label_args m info a t al l (dynamic_text a al t l)) = Throw what ->
  fst (update bus m) = Throw what
  /\ label_ (snd (update bus m)) = label_ m
  /\ event_box_ (snd (update bus m)) = event_box_ m
  /\ box_ (snd (update bus m))
     = restyle (lastPlayer m) (name info)
         (restyle (lastStatus m) (status_string info) (box_ m))
  /\ lastStatus (snd (update bus m)) = status_string info
  /\ lastPlayer (snd (update bus m)) = name info.
Proof.
  intros Hconn Hfetch Hplay Ha Hal Ht Hl Hfmt.
  destruct (ensure_player_frame bus m m0 _ Hconn) as [handle Hm0].
  destruct (getPlayerInfo_frame bus m0 m1 _ Hfetch) as [evs Hm1].
  rewrite (update_up_to_formatter bus m m0 m1 info a al t l
             Hconn Hfetch Hplay Ha Hal Ht Hl), Hfmt.
  subst m1 m0. simpl. repeat split.
Qed.

End Rendering.

(** ** More on clicks *)

Section ClicksMore.

Context {host : Host}.

(** X15.  Whenever the fetch yields "no data" (no player connected, an
    ignored player, a failed query), a click is reported as not handled
    and all that happened is what the fetch logged: no command is
    issued and the parent's handler is not called, whatever the event
    and the configured overrides are. *)
Theorem handleToggle_unhandled_without_snapshot (bus : Bus) (m : Mpris)
  (e : GdkEventButton) :
  fst (getPlayerInfo bus m) = Ret None ->
  exists evs,
    handleToggle bus e m = (Ret false, set_trace (trace m ++ evs) m)
    /\ forallb is_log evs = true.
Proof.
  intros Hfetch.
  destruct (getPlayerInfo_appends_logs bus m) as [evs [Hm1 Hlogs]].
  exists evs. split; [| exact Hlogs].
  unfold handleToggle, bind.
  destruct (getPlayerInfo bus m) as [o m1]. simpl in Hfetch, Hm1.
  subst o m1. reflexivity.
Qed.

(** X16.  With a snapshot present, an event which is not a single press
    (a double or triple press, a release), or whose button is none of 1,
    2 and 3, is reported as handled and does nothing: no command, no
    hand-over to the parent, even when overrides are configured. *)
Theorem handleToggle_inert_events (bus : Bus) (m m1 : Mpris)
  (info : PlayerInfo) (e : GdkEventButton) :
  getPlayerInfo bus m = (Ret (Some info), m1) ->
  type e <> GDK_BUTTON_PRESS \/ binding (button e) = None ->
  handleToggle bus e m = (Ret true, m1).
Proof.
  intros Hfetch Hinert. unfold handleToggle, bind at 1. rewrite Hfetch.
  destruct (type e) eqn:Htype; try reflexivity.
  destruct Hinert as [Hne | Hbutton]; [contradiction |].
  destruct (button e) as [| [[| |] | [| |] |]]; simpl in Hbutton;
    try discriminate Hbutton; reflexivity.
Qed.

(** X17.  The click path is not shielded from the directory: on the
    alias target with a connected player, a failing listing makes the
    click handler end by the exception of the fetch, before anything is
    logged or issued. *)
Theorem handleToggle_propagates_listing_error (bus : Bus) (m : Mpris)
  (p : PlayerctlPlayer) (players : list PlayerctlPlayerName)
  (message : string) (e : GdkEventButton) :
  player m = Some p ->
  player_ m = "playerctld" ->
  list_players bus = (players, Some message) ->
  handleToggle bus e m = (Throw ("unable to list players: " ++ message), m).
Proof.
  intros Hp Halias Hlist.
  unfold handleToggle, getPlayerInfo, resolve_name, bind, get.
  rewrite Hp, Halias, Hlist. reflexivity.
Qed.

End ClicksMore.

(** ** Signals of the player *)

(** X18.  The stop signal is connected twice: one emission runs the stop
    callback two times, which hides the output and requests two
    refreshes, while play, pause and metadata run their callback once
    and request one refresh; none of them lets time pass. *)
Theorem stop_signal_runs_its_callback_twice (m : Mpris) (now : nat) :
  let once := fun what =>
    [Log debug ("mpris: player-" ++ what ++ " callback"); DpEmit] in
  signal_emit player_connections "stop" (Some m)
  = Some (set_trace (trace m ++ once "stop" ++ once "stop")
            (set_event_box_ false m))
  /\ signal_emit player_connections "play" (Some m)
     = Some (set_trace (trace m ++ once "play") m)
  /\ signal_emit player_connections "pause" (Some m)
     = Some (set_trace (trace m ++ once "pause") m)
  /\ signal_emit player_connections "metadata" (Some m)
     = Some (set_trace (trace m ++ once "metadata") m)
  /\ emit_times now (once "stop" ++ once "stop") = [now; now]
  /\ emit_times now (once "play") = [now].
Proof.
  intros once. subst once.
  unfold signal_emit, player_connections, onPlayerStop, onPlayerPlay,
    onPlayerPause, onPlayerMetadata, callback, log, emit, modify, bind.
  simpl. rewrite <- !app_assoc. simpl.
  repeat split.
Qed.

(** X19.  Whatever signal of the player is emitted, known or not, the
    callbacks keep the handle, the label, the style classes and the
    settings; the visibility changes only on the stop signal, to
    hidden. *)
Theorem player_signals_keep_handle_and_label (signal : string) (m : Mpris) :
  exists m',
    signal_emit player_connections signal (Some m) = Some m'
    /\ player m' = player m /\ label_ m' = label_ m /\ box_ m' = box_ m
    /\ same_settings m m'
    /\ event_box_ m'
       = if (signal =? "stop")%string then false else event_box_ m.
Proof.
  unfold signal_emit, player_connections.
  rewrite (String.eqb_sym "play"), (String.eqb_sym "pause"),
    (String.eqb_sym "stop"), (String.eqb_sym "metadata").
  destruct (signal =? "play")%string eqn:Hplay;
    [apply String.eqb_eq in Hplay; subst signal; simpl;
     eexists; repeat split |].
  destruct (signal =? "pause")%string eqn:Hpause;
    [apply String.eqb_eq in Hpause; subst signal; simpl;
     eexists; repeat split |].
  destruct (signal =? "stop")%string eqn:Hstop;
    [apply String.eqb_eq in Hstop; subst signal; simpl;
     eexists; repeat split |].
  destruct (signal =? "metadata")%string eqn:Hmeta;
    [apply String.eqb_eq in Hmeta; subst signal; simpl;
     eexists; repeat split |].
  exists m. repeat split.
Qed.

(** ** The constructor *)

Lemma push_back_all_strings (names acc : list string) :
  push_back_all (map JString names) acc = Ret (acc ++ names)%list.
Proof.
  revert acc. induction names as [| n names IH]; intros acc; simpl.
  - now rewrite app_nil_r.
  - rewrite IH. now rewrite <- app_assoc.
Qed.

Lemma push_back_all_not_convertible (items : list Json) (acc : list string) :
  existsb not_convertible items = true ->
  push_back_all items acc = Throw "Type is not convertible to string".
Proof.
  revert acc. induction items as [| it items IH]; intros acc Hbad;
    [discriminate |].
  simpl in Hbad. destruct it; simpl in *; auto.
Qed.

Lemma push_back_all_convertible (items : list Json) (acc : list string) :
  existsb not_convertible items = false ->
  exists names, push_back_all items acc = Ret names.
Proof.
  revert acc. induction items as [| it items IH]; intros acc Hok; simpl.
  - now exists acc.
  - simpl in Hok. destruct it; simpl in *; try discriminate; apply IH, Hok.
Qed.

Lemma ignored_iff_listed (m : Mpris) (player_name : string) :
  ignored m player_name = true <-> In player_name (ignored_players_ m).
Proof.
  unfold ignored. rewrite existsb_exists. split.
  - intros [pn [Hin Heq]]. apply String.eqb_eq in Heq. now subst pn.
  - intros Hin. exists player_name. split; [exact Hin |].
    apply String.eqb_refl.
Qed.

(** X20.  A configured "ignored-players" array of strings becomes the
    ignore list as it stands, in the order of the array: the constructed
    object ignores exactly the names which the array holds. *)
Theorem Mpris_new_ignores_the_listed_players (config : Json)
  (names classes : list string) (visible : bool) :
  JsonValue.member config "ignored-players" = JArray (map JString names) ->
  exists c,
    Mpris_new config None classes visible = Ret c
    /\ ignored_players_ (object c) = names
    /\ forall player_name,
         ignored (object c) player_name = true <-> In player_name names.
Proof.
  intros Harray. unfold Mpris_new. rewrite Harray. simpl.
  rewrite push_back_all_strings. simpl.
  eexists. split; [reflexivity |]. split; [reflexivity |].
  intros player_name. apply ignored_iff_listed.
Qed.

(** X21.  An array or an object among the elements of "ignored-players"
    makes the constructor throw the conversion error of the
    configuration library, whether the player manager could be created
    or not; no object is constructed. *)
Theorem Mpris_new_rejects_nested_ignored_players (config : Json)
  (items : list Json) (manager_error : option string)
  (classes : list string) (visible : bool) :
  JsonValue.member config "ignored-players" = JArray items ->
  existsb not_convertible items = true ->
  Mpris_new config manager_error classes visible
  = Throw "Type is not convertible to string".
Proof.
  intros Harray Hbad. unfold Mpris_new. rewrite Harray. simpl.
  now rewrite (push_back_all_not_convertible items [] Hbad).
Qed.

(** X22.  When the player manager cannot be created, the constructor
    never returns an object: it ends by an exception, whatever the
    configuration is. *)
Theorem Mpris_new_needs_the_manager (config : Json) (message : string)
  (classes : list string) (visible : bool) :
  exists what,
    Mpris_new config (Some message) classes visible = Throw what.
Proof.
  unfold Mpris_new.
  destruct (JsonConv.isArray (JsonValue.member config "ignored-players")).
  - destruct (existsb not_convertible
                (JsonConv.items (JsonValue.member config "ignored-players")))
      eqn:Hitems.
    + rewrite (push_back_all_not_convertible _ [] Hitems). eauto.
    + destruct (push_back_all_convertible _ [] Hitems) as [names Hnames].
      rewrite Hnames. eauto.
  - eauto.
Qed.


Section FirstPass.

Context {host : Host}.

(** X24.  A constructed object starts disconnected, with nothing
    remembered, an empty label and exactly one refresh requested; the
    pass that follows connects to the player named by a string under
    "player", and to the alias "playerctld" when there is none. *)
Theorem first_pass_connects_to_the_configured_player (config : Json)
  (c : Constructed) (bus : Bus) (classes : list string) (visible : bool) :
  Mpris_new config None classes visible = Ret c ->
  player (object c) = None
  /\ lastStatus (object c) = "" /\ lastPlayer (object c) = ""
  /\ label_ (object c) = ""
  /\ trace (object c) = [DpEmit]
  /\ player (snd (update bus (object c)))
     = fst (new_from_name bus
              (match JsonValue.member config "player" with
               | JString s => s
               | _ => "playerctld"
               end)).
Proof.
  unfold Mpris_new.
  match goal with
  | |- context [match ?x with Ret _ => _ | Throw _ => _ | Undefined => _ end] =>
      destruct x as [names | what |]
  end; try discriminate.
  intros Hc. inversion Hc; subst c; clear Hc. simpl.
  repeat (split; [reflexivity |]).
  rewrite update_handle_after_connect.
  unfold ensure_player, bind, get, modify, ret, throw. simpl.
  unfold string_option.
  destruct (JsonValue.member config "player"); simpl;
    match goal with
    | |- context [new_from_name bus ?n] =>
        destruct (new_from_name bus n) as [handle [message |]]
    end; reflexivity.
Qed.

End FirstPass.

(** ** Icons *)

Lemma lookup_In (key : string) (members : list (string * Json)) (v : Json) :
  JsonValue.lookup key members = v -> v <> JNull -> In (key, v) members.
Proof.
  induction members as [| [k w] members IH]; simpl; intros Hv Hnull.
  - congruence.
  - destruct (String.eqb k key) eqn:Hk.
    + apply String.eqb_eq in Hk. subst. now left.
    + right. now apply IH.
Qed.

(** X25.  The icon lookup never fails: it gives the string stored under
    the key when there is one, and otherwise the empty string or a
    string stored under "default"; on anything but an object it gives the
    empty string. *)
Theorem getIcon_is_stored_or_empty (icons : Json) (key : string) :
  (forall s, JsonValue.member icons key = JString s -> getIcon icons key = s)
  /\ (JsonValue.isObject icons = false -> getIcon icons key = "")
  /\ (getIcon icons key <> "" ->
      exists members,
        icons = JObject members
        /\ (In (key, JString (getIcon icons key)) members
            \/ In ("default", JString (getIcon icons key)) members)).
Proof.
  unfold getIcon. repeat split.
  - intros s Hs. destruct icons; simpl in *; try discriminate.
    now rewrite Hs.
  - intros Hobj. now rewrite Hobj.
  - destruct icons as [| | | | | members]; simpl; try congruence.
    intros Hne. exists members. split; [reflexivity |].
    destruct (JsonValue.lookup key members) as [| | | s | |] eqn:Hkey;
      simpl in *;
      try (destruct (JsonValue.lookup "default" members)
             as [| | | d | |] eqn:Hdef; simpl in *; try congruence;
           right; apply lookup_In; [exact Hdef | discriminate]).
    left. apply lookup_In; [exact Hkey | discriminate].
Qed.

(** ** More on the duration string *)

Lemma pad2_two_characters (n : Z) :
  0 <= n < 100 -> String.length (CStr.pad2 n) = 2%nat.
Proof.
  intros Hn.
  assert (Hk : forall k : nat, (k < 100)%nat ->
               String.length (CStr.pad2 (Z.of_nat k)) = 2%nat).
  { intros k Hk.
    do 100 (destruct k as [| k]; [vm_compute; reflexivity |]). lia. }
  rewrite <- (Z2Nat.id n) by lia. apply Hk. lia.
Qed.

Lemma string_length_app (x y : string) :
  String.length (x ++ y) = (String.length x + String.length y)%nat.
Proof. induction x as [| c x IH]; simpl; [reflexivity | now rewrite IH]. Qed.

(** X26.  Below one hour the length is "MM:SS", five characters: the
    whole minutes of the duration and the whole seconds left over, each
    below 60 and padded to two digits. *)
Theorem length_below_one_hour_is_minutes_and_seconds (len : Z) :
  0 < len < Chrono.us_per_hour ->
  exists mm ss,
    0 <= mm < 60 /\ 0 <= ss < 60
    /\ mm * Chrono.us_per_minute + ss * Chrono.us_per_second <= len
       < mm * Chrono.us_per_minute + (ss + 1) * Chrono.us_per_second
    /\ length_of_microseconds len = Some (CStr.pad2 mm ++ ":" ++ CStr.pad2 ss)
    /\ String.length (CStr.pad2 mm ++ ":" ++ CStr.pad2 ss) = 5%nat.
Proof.
  intros Hlen.
  exists (len / Chrono.us_per_minute),
         (len mod Chrono.us_per_minute / Chrono.us_per_second).
  assert (Hm : 0 < Chrono.us_per_minute) by reflexivity.
  assert (Hs : 0 < Chrono.us_per_second) by reflexivity.
  pose proof (Z.div_mod len Chrono.us_per_minute ltac:(lia)) as Hdm.
  pose proof (Z.mod_pos_bound len Chrono.us_per_minute Hm) as Hrm.
  pose proof (Z.div_mod (len mod Chrono.us_per_minute) Chrono.us_per_second
                ltac:(lia)) as Hds.
  pose proof (Z.mod_pos_bound (len mod Chrono.us_per_minute)
                Chrono.us_per_second Hs) as Hrs.
  assert (Hmm : 0 <= len / Chrono.us_per_minute < 60).
  { split; [apply Z.div_pos; lia |].
    apply Z.div_lt_upper_bound; [lia |].
    unfold Chrono.us_per_hour in Hlen. lia. }
  assert (Hss : 0 <= len mod Chrono.us_per_minute / Chrono.us_per_second < 60).
  { split; [apply Z.div_pos; lia |].
    apply Z.div_lt_upper_bound; [lia |].
    unfold Chrono.us_per_minute in *. lia. }
  split; [exact Hmm |]. split; [exact Hss |].
  split; [lia |].
  split; [now apply length_below_one_hour |].
  rewrite !string_length_app, !pad2_two_characters by lia. reflexivity.
Qed.

(** X27.  From one hour on the length is "HH:MM:SS" with the hours and
    the minutes of the duration, but its third field is not the seconds
    of the duration: it is those seconds plus 3600 for every hour. *)
Theorem length_from_one_hour (len : Z) :
  Chrono.us_per_hour <= len ->
  let h := len / Chrono.us_per_hour in
  let mm := len mod Chrono.us_per_hour / Chrono.us_per_minute in
  let ss := len mod Chrono.us_per_minute / Chrono.us_per_second in
  1 <= h /\ 0 <= mm < 60 /\ 0 <= ss < 60
  /\ length_of_microseconds len
     = Some (CStr.pad2 h ++ ":" ++ CStr.pad2 mm ++ ":"
             ++ CStr.pad2 (3600 * h + ss)).
Proof.
  intros Hlen h mm ss.
  assert (Hh : 0 < Chrono.us_per_hour) by reflexivity.
  assert (Hm : 0 < Chrono.us_per_minute) by reflexivity.
  assert (Hs : 0 < Chrono.us_per_second) by reflexivity.
  assert (HhM : Chrono.us_per_hour = 60 * Chrono.us_per_minute)
    by reflexivity.
  assert (HmS : Chrono.us_per_minute = 60 * Chrono.us_per_second)
    by reflexivity.
  pose proof (Z.div_mod len Chrono.us_per_hour ltac:(lia)) as Hdh.
  pose proof (Z.mod_pos_bound len Chrono.us_per_hour Hh) as Hrh.
  set (r := len mod Chrono.us_per_hour) in *.
  pose proof (Z.div_mod r Chrono.us_per_minute ltac:(lia)) as Hdm.
  pose proof (Z.mod_pos_bound r Chrono.us_per_minute Hm) as Hrm.
  assert (Hr' : len mod Chrono.us_per_minute = r mod Chrono.us_per_minute).
  { symmetry. apply Z.mod_unique with (60 * (len / Chrono.us_per_hour)
                                       + r / Chrono.us_per_minute); lia. }
  set (r' := r mod Chrono.us_per_minute) in *.
  pose proof (Z.div_mod r' Chrono.us_per_second ltac:(lia)) as Hds.
  pose proof (Z.mod_pos_bound r' Chrono.us_per_second Hs) as Hrs.
  assert (Hh1 : 1 <= h).
  { subst h. apply Z.div_le_lower_bound; lia. }
  assert (Hmm : 0 <= mm < 60).
  { subst mm. split; [apply Z.div_pos; lia |].
    apply Z.div_lt_upper_bound; lia. }
  assert (Hss : 0 <= ss < 60).
  { subst ss. rewrite Hr'. split; [apply Z.div_pos; lia |].
    apply Z.div_lt_upper_bound; lia. }
  split; [exact Hh1 |]. split; [exact Hmm |]. split; [exact Hss |].
  unfold length_of_microseconds.
  destruct (Z.ltb_spec 0 len) as [_ | Hneg]; [| lia].
  unfold Chrono.to_hours. rewrite (Z.quot_div_nonneg len) by lia.
  fold h. destruct (Z.ltb_spec 0 h) as [_ | Hneg]; [| lia].
  replace (len - h * Chrono.us_per_hour) with r by (subst h; lia).
  unfold Chrono.to_minutes. rewrite (Z.quot_div_nonneg r) by lia.
  fold mm.
  unfold Chrono.to_seconds.
  rewrite Z.quot_div_nonneg by (subst mm h; lia).
  replace ((len - mm * Chrono.us_per_minute) / Chrono.us_per_second)
    with (3600 * h + ss); [reflexivity |].
  subst ss. rewrite Hr'.
  apply Z.div_unique with (r' mod Chrono.us_per_second); [lia |].
  subst mm h. lia.
Qed.

Lemma digits_acc_nonneg (s : string) (acc : Z) :
  0 <= acc -> 0 <= CStr.digits_acc acc s.
Proof.
  revert acc. induction s as [| c s IH]; intros acc Hacc;
    cbn [CStr.digits_acc]; [exact Hacc |].
  unfold CStr.digit_of.
  destruct ((48 <=? N_of_ascii c)%N && (N_of_ascii c <=? 57)%N) eqn:Hdigit;
    [| exact Hacc].
  apply IH. apply andb_prop in Hdigit. destruct Hdigit as [Hlo _].
  apply N.leb_le in Hlo. lia.
Qed.

Section LengthText.

Context {host : Host}.

(** X28.  A duration text which is empty, or which after leading blanks
    starts with a minus sign, leaves the snapshot without a length, and
    nothing is logged for it. *)
Theorem fetch_length_drops_empty_and_negative (r : GReply) (text : string)
  (info : PlayerInfo) (m : Mpris) :
  value r = Some text ->
  text = "" \/ (exists rest, CStr.skip_space text = String "-" rest) ->
  fetch_length r info m = (Ret info, m).
Proof.
  intros Hvalue Htext. unfold fetch_length. rewrite Hvalue.
  assert (Hlen : CStr.strtol text <= 0).
  { destruct Htext as [Hempty | [rest Hminus]].
    - subst text. vm_compute. discriminate.
    - unfold CStr.strtol. rewrite Hminus.
      pose proof (digits_acc_nonneg rest 0 ltac:(lia)) as Hd.
      unfold CStr.LONG_MIN, CStr.LONG_MAX. lia. }
  unfold length_of_microseconds.
  destruct (Z.ltb_spec 0 (CStr.strtol text)) as [Hpos | _]; [lia |].
  reflexivity.
Qed.

End LengthText.

(** ** The further theorems at the sample inputs *)

Lemma update_keeps_live_handle_witness :
  player (snd (@update Reference.host Sample.bus Sample.connected))
  = Some (Handle "playerctld")
  /\ @update Reference.host
       (Sample.with_connect (None, Some "no such player") Sample.bus)
       Sample.connected
     = @update Reference.host Sample.bus Sample.connected.
Proof.
  apply (@update_keeps_live_handle Reference.host Sample.bus
           Sample.connected (Handle "playerctld")).
  reflexivity.
Defined.

Lemma update_reconnects_after_name_signal_witness :
  player (snd (@update Reference.host Sample.bus More.after_vanish))
  = fst (new_from_name Sample.bus (player_ Sample.connected)).
Proof.
  apply (@update_reconnects_after_name_signal Reference.host Sample.bus
           {| pn_name := "vlc"; pn_instance := "vlc" |}
           Sample.connected More.after_vanish).
  right. reflexivity.
Defined.

Lemma ignored_player_gives_no_data_witness :
  @getPlayerInfo Reference.host Sample.null_status More.ignoring
  = (Ret None,
     set_trace
       (trace More.ignoring
        ++ [Log warn "mpris[spotify]: ignoring player update"])
       More.ignoring).
Proof.
  apply (@ignored_player_gives_no_data Reference.host Sample.null_status
           More.ignoring (Handle "playerctld") "spotify");
    reflexivity.
Defined.

Lemma snapshot_name_witness :
  name Sample.info_ABC = shown_name Sample.bus Sample.connected.
Proof.
  apply (@snapshot_name Reference.host Sample.bus Sample.connected
           Sample.info_ABC).
  vm_compute. reflexivity.
Defined.

Lemma concrete_player_skips_listing_witness :
  @getPlayerInfo Reference.host Sample.listing_fails More.bound_to_vlc
  = @getPlayerInfo Reference.host Sample.bus More.bound_to_vlc
  /\ @update Reference.host Sample.listing_fails More.bound_to_vlc
     = @update Reference.host Sample.bus More.bound_to_vlc.
Proof.
  apply (@concrete_player_skips_listing Reference.host Sample.bus
           More.bound_to_vlc ([], Some "bus down")).
  discriminate.
Defined.

Lemma first_error_is_the_one_logged_witness :
  exists evs,
    @getPlayerInfo Reference.host Sample.artist_fails Sample.connected
    = (Ret None, set_trace (trace Sample.connected ++ evs) Sample.connected)
    /\ filter is_error_log evs = [Log error "mpris[spotify]: timed out"].
Proof.
  apply (@first_error_is_the_one_logged Reference.host Sample.artist_fails
           Sample.connected (Handle "playerctld") "spotify" "Playing"
           "timed out"); reflexivity.
Defined.

Lemma update_without_snapshot_witness :
  @update Reference.host Sample.artist_fails Sample.fresh
  = (Ret tt,
     set_trace
       (trace (More.fetched Reference.host Sample.artist_fails)
        ++ [ParentUpdate])
       (set_event_box_ false
          (More.fetched Reference.host Sample.artist_fails))).
Proof.
  exact (proj1 (@update_without_snapshot Reference.host Sample.artist_fails
                  Sample.fresh Sample.connected
                  (More.fetched Reference.host Sample.artist_fails)
                  eq_refl eq_refl)).
Defined.

Lemma update_renders_witness :
  label_ (snd (@update Reference.host Sample.bus Sample.fresh))
  = "spotify (playing): A - B - C <small>[03:21]</small>".
Proof.
  exact (proj1 (proj2
    (@update_renders Reference.host Sample.bus Sample.fresh
       Sample.connected (More.fetched Reference.host Sample.bus)
       Sample.info_ABC "A" "B" "C" "03:21"
       "spotify (playing): A - B - C <small>[03:21]</small>"
       eq_refl eq_refl eq_refl eq_refl eq_refl eq_refl eq_refl eq_refl))).
Defined.

Lemma update_format_error_witness :
  fst (@update Reference.host Sample.bus
         (Sample.with_format "{nope}" Sample.fresh))
  = Throw "argument not found"
  /\ label_ (snd (@update Reference.host Sample.bus
                    (Sample.with_format "{nope}" Sample.fresh))) = ""
  /\ lastStatus (snd (@update Reference.host Sample.bus
                        (Sample.with_format "{nope}" Sample.fresh)))
     = "playing".
Proof.
  destruct (@update_format_error Reference.host Sample.bus
              (Sample.with_format "{nope}" Sample.fresh)
              (Sample.with_format "{nope}" Sample.connected)
              (snd (@getPlayerInfo Reference.host Sample.bus
                      (Sample.with_format "{nope}" Sample.connected)))
              Sample.info_ABC "A" "B" "C" "03:21" "argument not found"
              eq_refl eq_refl eq_refl eq_refl eq_refl eq_refl eq_refl
              eq_refl)
    as (Hthrow & Hlabel & _ & _ & Hstatus & _).
  exact (conj Hthrow (conj Hlabel Hstatus)).
Defined.

Lemma handleToggle_unhandled_without_snapshot_witness :
  exists evs,
    @handleToggle Reference.host Sample.bus (click 1) Sample.fresh
    = (Ret false, set_trace (trace Sample.fresh ++ evs) Sample.fresh)
    /\ forallb is_log evs = true.
Proof.
  apply (@handleToggle_unhandled_without_snapshot Reference.host Sample.bus
           Sample.fresh (click 1)).
  reflexivity.
Defined.

Lemma handleToggle_inert_events_witness :
  @handleToggle Reference.host Sample.bus More.double_click
    Sample.middle_overridden
  = (Ret true,
     snd (@getPlayerInfo Reference.host Sample.bus Sample.middle_overridden)).
Proof.
  apply (@handleToggle_inert_events Reference.host Sample.bus
           Sample.middle_overridden _ Sample.info_ABC More.double_click).
  - reflexivity.
  - left. discriminate.
Defined.

Lemma handleToggle_propagates_listing_error_witness :
  @handleToggle Reference.host Sample.listing_fails (click 1)
    Sample.connected
  = (Throw "unable to list players: bus down", Sample.connected).
Proof.
  apply (@handleToggle_propagates_listing_error Reference.host
           Sample.listing_fails Sample.connected (Handle "playerctld") []
           "bus down" (click 1)); reflexivity.
Defined.

Lemma Mpris_new_ignores_the_listed_players_witness :
  exists c,
    Mpris_new More.config_ignoring None [] false = Ret c
    /\ ignored_players_ (object c) = ["spotify"; "vlc"]
    /\ forall player_name,
         ignored (object c) player_name = true
         <-> In player_name ["spotify"; "vlc"].
Proof.
  apply (Mpris_new_ignores_the_listed_players More.config_ignoring
           ["spotify"; "vlc"] [] false).
  reflexivity.
Defined.

Lemma Mpris_new_rejects_nested_ignored_players_witness :
  Mpris_new More.config_nested None [] false
  = Throw "Type is not convertible to string".
Proof.
  apply (Mpris_new_rejects_nested_ignored_players More.config_nested
           [JString "spotify"; JArray []] None [] false); reflexivity.
Defined.


Lemma first_pass_connects_to_the_configured_player_witness :
  player (snd (@update Reference.host Sample.bus
                 (object More.constructed_interval)))
  = Some (Handle "vlc").
Proof.
  destruct (@first_pass_connects_to_the_configured_player Reference.host
              More.config_interval More.constructed_interval Sample.bus
              [] false eq_refl)
    as (_ & _ & _ & _ & _ & Hplayer).
  exact Hplayer.
Defined.

Lemma length_below_one_hour_is_minutes_and_seconds_witness :
  exists mm ss,
    0 <= mm < 60 /\ 0 <= ss < 60
    /\ mm * Chrono.us_per_minute + ss * Chrono.us_per_second <= 125000000
       < mm * Chrono.us_per_minute + (ss + 1) * Chrono.us_per_second
    /\ length_of_microseconds 125000000
       = Some (CStr.pad2 mm ++ ":" ++ CStr.pad2 ss)
    /\ String.length (CStr.pad2 mm ++ ":" ++ CStr.pad2 ss) = 5%nat.
Proof.
  apply (length_below_one_hour_is_minutes_and_seconds 125000000).
  unfold Chrono.us_per_hour, Chrono.us_per_minute, Chrono.us_per_second.
  lia.
Defined.

Lemma length_from_one_hour_witness :
  length_of_microseconds 3661000000 = Some "01:01:3601".
Proof.
  refine (proj2 (proj2 (proj2 (length_from_one_hour 3661000000 _)))).
  unfold Chrono.us_per_hour, Chrono.us_per_minute, Chrono.us_per_second.
  lia.
Defined.

Lemma fetch_length_drops_empty_and_negative_witness :
  fetch_length (Sample.reply "-5") Sample.info_title_only Sample.fresh
  = (Ret Sample.info_title_only, Sample.fresh).
Proof.
  apply (fetch_length_drops_empty_and_negative (Sample.reply "-5") "-5").
  - reflexivity.
  - right. exists "5". reflexivity.
Defined.
